(** * SmkmStore: offset recovery for the SMKM_STORE structure

    A shallow embedding of [SmkmStore.py].  The class drives an external
    CPU emulator over kernel routines, feeding them a synthetic pattern in
    place of a real SMKM_STORE instance, and derives field offsets either
    from the address of the first memory read or from the value left in a
    register.

    The Python methods become programs in a state-and-exception monad; the
    disassembler, the emulator and the helpers inherited from [Tools] are
    fields of a record of collaborators, so that every statement below
    quantifies over what they may answer. *)

From Stdlib Require Import ZArith List Lia Bool.
From Stdlib Require Import Strings.Byte.
From stdpp Require Import base option list strings gmap.

Open Scope Z_scope.

(** ** Byte strings *)

(** A Python 2 [str] (equally a [bytes] object) is a sequence of bytes. *)
Abbreviation bytes := (list byte).

#[global] Instance byte_eq_decision : EqDecision byte := byte_eq_dec.

(** [s[i:i+w]] for a non-negative [i]: slicing truncates at the end of [s]
    and never fails. *)
Definition slice (s : bytes) (i w : nat) : bytes := take w (drop i s).

(** [s.startswith(sub)]. *)
Fixpoint startswith (s sub : bytes) : bool :=
  match sub, s with
  | [], _ => true
  | _ :: _, [] => false
  | b :: sub', c :: s' => Byte.eqb b c && startswith s' sub'
  end.

(** Lowest index, counted from [i], at which [sub] occurs in [s]. *)
Fixpoint find_from (s sub : bytes) (i : nat) : option nat :=
  if startswith s sub then Some i
  else match s with
       | [] => None
       | _ :: s' => find_from s' sub (S i)
       end.

(** [s.find(sub)]: the lowest index where [sub] occurs, [-1] when it does
    not occur. *)
Definition bytes_find (s sub : bytes) : Z :=
  match find_from s sub 0 with
  | Some i => Z.of_nat i
  | None => -1
  end.

(** The byte whose value is [z mod 256]. *)
Definition byte_of_Z (z : Z) : byte :=
  match Byte.of_N (Z.to_N (z mod 256)) with
  | Some b => b
  | None => x00
  end.

Definition Z_of_byte (b : byte) : Z := Z.of_N (Byte.to_N b).

(** The [n] low-order bytes of [v], least significant first. *)
Fixpoint le_bytes (n : nat) (v : Z) : bytes :=
  match n with
  | O => []
  | S n' => byte_of_Z v :: le_bytes n' (v / 256)
  end.

(** The unsigned integer a little-endian byte string denotes. *)
Fixpoint le_int (bs : bytes) : Z :=
  match bs with
  | [] => 0
  | b :: bs' => Z_of_byte b + 256 * le_int bs'
  end.

(** ** Exceptions and results *)

Inductive exn : Type :=
| TypeError
| KeyError
| StructError
| OtherError (what : string).

Inductive result (A : Type) : Type :=
| Ok (a : A)
| Err (e : exn).
Arguments Ok {A} a.
Arguments Err {A} e.

(** [struct.calcsize] for the two formats the class uses: standard size,
    little-endian unsigned. *)
Definition calcsize (fmt : string) : option nat :=
  if String.eqb fmt "<Q" then Some 8%nat
  else if String.eqb fmt "<I" then Some 4%nat
  else None.

(** [struct.pack(fmt, v)] for one unsigned integer: [struct.error] when the
    value does not fit the format. *)
Definition struct_pack (fmt : string) (v : Z) : result bytes :=
  match calcsize fmt with
  | Some n =>
      if (0 <=? v) && (v <? 256 ^ Z.of_nat n) then Ok (le_bytes n v)
      else Err StructError
  | None => Err StructError
  end.

(** ** The interpreter state and its monad *)

Inductive level : Type := DEBUG | INFO.

(** One call on the [SMKM_STORE] logger: the level, the format template and
    the integers formatted into it. *)
Record LogRecord : Type := mkLog {
  log_level : level;
  log_template : string;
  log_args : list Z
}.

(** What a method can change: the emulator behind [self.fe] and the calls
    made on [self.logger], oldest first. *)
Record PyState (Emu : Type) : Type := mkState {
  fe : Emu;
  records : list LogRecord
}.
Arguments mkState {Emu} fe records.
Arguments fe {Emu} _.
Arguments records {Emu} _.

(** A method body: it ends with a value or with a raised exception, and in
    both cases leaves the state it had reached. *)
Definition M (Emu A : Type) : Type := PyState Emu → result A * PyState Emu.

#[global] Instance M_ret {Emu} : MRet (M Emu) := λ A a s, (Ok a, s).

#[global] Instance M_bind {Emu} : MBind (M Emu) := λ A B k m s,
  match m s with
  | (Ok a, s') => k a s'
  | (Err e, s') => (Err e, s')
  end.

Definition raise {Emu A} (e : exn) : M Emu A := λ s, (Err e, s).

(** A pure computation that may raise. *)
Definition lift {Emu A} (r : result A) : M Emu A := λ s, (r, s).

(** [self.logger.debug(..)] and [self.logger.info(..)]: the call is kept
    with its level.  Whether a call is emitted is decided by the level
    [__init__] gave the logger (INFO unless told otherwise, which drops the
    debug calls). *)
Definition logger_debug {Emu} (template : string) (args : list Z) : M Emu unit :=
  λ s, (Ok (), mkState (fe s) (records s ++ [mkLog DEBUG template args])).

Definition logger_info {Emu} (template : string) (args : list Z) : M Emu unit :=
  λ s, (Ok (), mkState (fe s) (records s ++ [mkLog INFO template args])).

(** ** Collaborators *)

(** One invocation of the memory access hook by the emulator. *)
Record MemAccess : Type := mkAccess {
  accessType : Z;
  memAccessAddress : Z;
  memAccessSize : Z;
  memValue : Z
}.

Definition UC_MEM_READ : Z := 16.
Definition UC_MEM_WRITE : Z := 17.

(** Everything [SmkmStore] reaches through [self]: the helpers inherited
    from [Tools], the environment query of [Tools.Info] and the flare-emu
    object.  [Emu] is the emulator's own state.

    - [emulateRange start registers] runs the routine at [start] from the
      given register values; it yields the memory accesses it reports to
      the hook, in execution order.  The hook of this class only observes,
      so the accesses do not depend on it.
    - [iterate targets pre] runs towards [targets] (with the target
      callback [self.tHook] of [Tools]) after letting [pre] act on the
      emulator.
    - [regs] is the emulator helper's table from register aliases to
      emulator register numbers, [reg_write] the raw register write. *)
Record World (Emu : Type) : Type := mkWorld {
  is_64bit : bool;
  find_ida_name : string → result (Z * string);
  locate_call_in_fn : string → string → result (Z * Z);
  patgen : Z → result bytes;
  loadBytes : bytes → Emu → Z * Emu;
  emulateRange : Z → gmap string Z → Emu → list MemAccess * Emu;
  iterate : list Z → (Emu → Emu) → Emu → Emu;
  regs : string → Z;
  reg_write : Z → Z → Emu → Emu;
  getRegVal : string → Emu → Z
}.
Arguments is_64bit {Emu} _.
Arguments find_ida_name {Emu} _ _.
Arguments locate_call_in_fn {Emu} _ _ _.
Arguments patgen {Emu} _ _.
Arguments loadBytes {Emu} _ _ _.
Arguments emulateRange {Emu} _ _ _ _.
Arguments iterate {Emu} _ _ _ _.
Arguments regs {Emu} _ _.
Arguments reg_write {Emu} _ _ _ _.
Arguments getRegVal {Emu} _ _ _.

Section Harness.
Context {Emu : Type}.
Variable W : World Emu.

(** [self.fe.loadBytes(pat)] *)
Definition fe_loadBytes (pat : bytes) : M Emu Z :=
  λ s, let '(base, e) := loadBytes W pat (fe s) in
       (Ok base, mkState e (records s)).

(** Feed the reported accesses to the hook, which threads its captured
    data [D]. *)
Fixpoint run_hook {D : Type} (hook : MemAccess → D → M Emu D)
    (trace : list MemAccess) (d : D) : M Emu D :=
  match trace with
  | [] => mret d
  | ev :: trace' => d' ← hook ev d; run_hook hook trace' d'
  end.

(** [self.fe.emulateRange(start, registers=.., memAccessHook=hook)], for a
    run that the emulator brings to an end; a run it gives up with an
    exception of its own is not described. *)
Definition fe_emulateRange {D : Type} (start : Z) (registers : gmap string Z)
    (hook : MemAccess → D → M Emu D) (d : D) : M Emu D :=
  λ s, let '(trace, e) := emulateRange W start registers (fe s) in
       run_hook hook trace d (mkState e (records s)).

(** [self.fe.iterate(targets, self.tHook, preEmuCallback=pre)] *)
Definition fe_iterate (targets : list Z) (pre : Emu → Emu) : M Emu unit :=
  λ s, (Ok (), mkState (iterate W targets pre (fe s)) (records s)).

(** [self.fe.getRegVal(name)] *)
Definition fe_getRegVal (name : string) : M Emu Z :=
  λ s, (Ok (getRegVal W name (fe s)), s).
End Harness.

(** ** class SmkmStore *)

(** The dictionary [mHookData] the memory hook closes over. *)
Record HookData : Type := mkHookData {
  offset : option Z;
  structAddr : Z
}.

(** Truth value of [mHookData['offset']]: [None] and [0] are false. *)
Definition truthy (o : option Z) : bool :=
  match o with
  | Some a => negb (a =? 0)
  | None => false
  end.

(** ['rcx' if self.Info.is_64bit() else 'ecx'] *)
Definition reg_cx (is64 : bool) : string := if is64 then "rcx" else "ecx".

(** ["<Q" if self.Info.is_64bit() else "<I"] *)
Definition struct_fmt (is64 : bool) : string := if is64 then "<Q" else "<I".

(** The nested ST_STORE structure is assumed to sit at offset 0. *)
Definition sks_ststore {Emu} (self : World Emu) : M Emu Z := mret 0.

Section SmkmStore.
Context {Emu : Type}.
Variable W : World Emu.

(** The hook nested in [sks_compressedregionptrarray]. *)
Definition mHook (ev : MemAccess) (mHookData : HookData) : M Emu HookData :=
  if truthy (offset mHookData) then mret mHookData
  else if accessType ev =? 16 then
    _ ← logger_debug "Mem read @ 0x{0:x}: {1}"
          [memAccessAddress ev; memValue ev];
    mret (mkHookData (Some (memAccessAddress ev)) (structAddr mHookData))
  else mret mHookData.

Definition sks_compressedregionptrarray : M Emu Z :=
  '(fn_addr, fn_name) ← lift (find_ida_name W "SmStMapVirtualRegion");
  pat ← lift (patgen W 8192);
  lp_smkmstore ← fe_loadBytes W pat;
  let mHookData := mkHookData None lp_smkmstore in
  let regState : gmap string Z := {[ reg_cx (is_64bit W) := lp_smkmstore ]} in
  mHookData ← fe_emulateRange W fn_addr regState mHook mHookData;
  match offset mHookData with
  | Some a => mret (a - structAddr mHookData)
  | None => raise TypeError
  end.

(** The pre-emulation callback nested in [sks_storeownerprocess], as it
    acts on the emulator; its debug line goes to the emulator helper's
    own logger. *)
Definition pHook (addr_smkmstore : Z) : Emu → Emu :=
  reg_write W (regs W "cx") addr_smkmstore.

Definition sks_storeownerprocess : M Emu Z :=
  '(startAddr, endAddr) ←
    lift (locate_call_in_fn W "?SmStDirectRead@?$SMKM_STORE" "KiStackAttachProcess");
  pat ← lift (patgen W 8192);
  addr_smkmstore ← fe_loadBytes W pat;
  _ ← fe_iterate W [endAddr] (pHook addr_smkmstore);
  reg_ecx ← fe_getRegVal W (reg_cx (is_64bit W));
  packed ← lift (struct_pack (struct_fmt (is_64bit W)) reg_ecx);
  mret (bytes_find pat packed).
End SmkmStore.

(** A method as stored in a table: still waiting for [self]. *)
Abbreviation Resolver Emu := (World Emu → M Emu Z).

(** ** Tools.Info: the per-architecture function table *)

(** Modelled from the spec: the class attribute [arch_fns] of [Tools.Info]
    and its decorators [arch32] and [arch64] are not part of [SmkmStore.py].
    The registry maps a bitness to the resolver to invoke per field name; a
    function tagged valid for a bitness is entered under its own name in
    that bitness's table, and the decorator hands the function back so that
    both tags can be stacked. *)
Definition register {Emu} (arch name : string) (fn : Resolver Emu)
    (arch_fns : gmap string (gmap string (Resolver Emu)))
    : gmap string (gmap string (Resolver Emu)) :=
  <[arch := <[name := fn]> (default ∅ (arch_fns !! arch))]> arch_fns.

(** Modelled from the spec: the decorator [Tools.Info.arch32], the tag
    "valid for 32-bit". *)
Definition arch32 {Emu} (name : string) (fn : Resolver Emu) := register "x86" name fn.

(** Modelled from the spec: the decorator [Tools.Info.arch64], the tag
    "valid for 64-bit". *)
Definition arch64 {Emu} (name : string) (fn : Resolver Emu) := register "x64" name fn.

(** The decorated definitions of the class body, in source order; of two
    stacked decorators the lower one is applied first. *)
Definition SmkmStore_class {Emu}
    (arch_fns : gmap string (gmap string (Resolver Emu)))
    : gmap string (gmap string (Resolver Emu)) :=
  let t := arch64 "sks_ststore" sks_ststore arch_fns in
  let t := arch32 "sks_ststore" sks_ststore t in
  let t := arch64 "sks_compressedregionptrarray" sks_compressedregionptrarray t in
  let t := arch32 "sks_compressedregionptrarray" sks_compressedregionptrarray t in
  let t := arch64 "sks_storeownerprocess" sks_storeownerprocess t in
  arch32 "sks_storeownerprocess" sks_storeownerprocess t.

(** [d[k]], with the table taken to be a plain dictionary, where a
    missing key raises [KeyError]. *)
Definition getitem {Emu K A} `{Countable K} (d : gmap K A) (k : K) : M Emu A :=
  match d !! k with
  | Some a => mret a
  | None => raise KeyError
  end.

Section Dump.
Context {Emu : Type}.
Variable W : World Emu.
Variable arch_fns : gmap string (gmap string (Resolver Emu)).

Definition arch_key : string := if is_64bit W then "x64" else "x86".

(** [self.Info.arch_fns[arch][name](self)] *)
Definition call_arch_fn (name : string) : M Emu Z :=
  fns ← getitem arch_fns arch_key;
  fn ← getitem fns name;
  fn W.

Definition _dump : M Emu unit :=
  v ← call_arch_fn "sks_ststore";
  _ ← logger_info "StStore: {0:#x}" [v];
  v ← call_arch_fn "sks_compressedregionptrarray";
  _ ← logger_info "pCompressedRegionPtrArray: {0:#x}" [v];
  v ← call_arch_fn "sks_storeownerprocess";
  logger_info "StoreOwnerProcess: {0:#x}" [v].

Definition _dump64 : M Emu unit := mret ().
End Dump.

(** ** Tools.patgen *)

Definition uppers : bytes := String.list_byte_of_string "ABCDEFGHIJKLMNOPQRSTUVWXYZ".
Definition lowers : bytes := String.list_byte_of_string "abcdefghijklmnopqrstuvwxyz".
Definition digits : bytes := String.list_byte_of_string "0123456789".

(** Modelled from the spec: the position-derived tags of [Tools.patgen],
    here the counter [Aa0 Aa1 .. Aa9 Ab0 .. Zz9], three bytes per count. *)
Definition cyclic : bytes :=
  u ← uppers; l ← lowers; d ← digits; [u; l; d].

(** Modelled from the spec: [Tools.patgen] is not part of [SmkmStore.py].
    The generator tags every position from an incrementing counter (an
    upper-case letter, a lower-case letter and a digit, the digit running
    fastest), returns the first [size] bytes, and fails fast with a
    configuration error when [size] is not positive or exceeds what the
    counter can tag without repeating. *)
Definition patgen_model (size : Z) : result bytes :=
  if (0 <? size) && (size <=? 20280) then Ok (take (Z.to_nat size) cyclic)
  else Err (OtherError "ConfigurationError").

(** ** Notions the statements are phrased with *)

(** Pointer width in bytes. *)
Definition ptr_width (is64 : bool) : nat := if is64 then 8%nat else 4%nat.

(** No [w]-byte window of [pat] starts at two positions. *)
Definition window_unique (w : nat) (pat : bytes) : Prop :=
  ∀ i j : nat, (i < length pat)%nat → (j < length pat)%nat →
    slice pat i w = slice pat j w → i = j.

(** [sub] occurs in [s] at index [k]. *)
Definition occurs_at (s sub : bytes) (k : nat) : Prop :=
  (k + length sub ≤ length s)%nat ∧ slice s k (length sub) = sub.

(** The address-interception contract in the words of the design
    description: the first read whose address lies in
    [probe_base, probe_base + probe_length) decides, and its distance from
    the base is the result; [None] stands for the failure
    [NoAccessObserved]. *)
Fixpoint resolve_by_access_spec (probe_base probe_length : Z)
    (trace : list MemAccess) : option Z :=
  match trace with
  | [] => None
  | ev :: trace' =>
      if (accessType ev =? UC_MEM_READ)
         && (probe_base <=? memAccessAddress ev)
         && (memAccessAddress ev <? probe_base + probe_length)
      then Some (memAccessAddress ev - probe_base)
      else resolve_by_access_spec probe_base probe_length trace'
  end.

(** The table hands out the three methods of this class for the detected
    architecture. *)
Definition registered {Emu} (W : World Emu)
    (arch_fns : gmap string (gmap string (Resolver Emu))) : Prop :=
  ∃ fns, arch_fns !! arch_key W = Some fns
    ∧ fns !! "sks_ststore" = Some sks_ststore
    ∧ fns !! "sks_compressedregionptrarray" = Some sks_compressedregionptrarray
    ∧ fns !! "sks_storeownerprocess" = Some sks_storeownerprocess.

(** Ordinal of the count written [u l d]. *)
Definition counter_index (u l d : Z) : Z :=
  ((u - 65) * 26 + (l - 97)) * 10 + (d - 48).

(** The position in [cyclic] at which a window of at least four bytes
    starts, read off its first four bytes. *)
Definition offset_of_window (win : bytes) : Z :=
  match win with
  | c0 :: c1 :: c2 :: c3 :: _ =>
      let b0 := Z_of_byte c0 in
      let b1 := Z_of_byte c1 in
      let b2 := Z_of_byte c2 in
      let b3 := Z_of_byte c3 in
      if (65 <=? b0) && (b0 <=? 90) then 3 * counter_index b0 b1 b2
      else if (97 <=? b0) && (b0 <=? 122) then
        let u := if (b0 =? 122) && (b1 =? 57) then b2 - 1 else b2 in
        3 * counter_index u b0 b1 + 1
      else 3 * (counter_index b1 b2 b3 - 1) + 2
  | _ => -1
  end.

(** [offset_of_window] answers [i], [i+1], .. on the first [n] suffixes
    of [s]. *)
Fixpoint windows_decode_from (s : bytes) (i : Z) (n : nat) {struct n} : bool :=
  match n with
  | O => true
  | S n' =>
      (offset_of_window s =? i)
      && match s with
         | [] => false
         | _ :: s' => windows_decode_from s' (i + 1) n'
         end
  end.

(** ** Synthetic routines on a toy emulator *)

(** A toy emulator: the bytes loaded as the fake structure and the counter
    register. *)
Record Toy : Type := mkToy {
  toy_mem : bytes;
  toy_cx : Z
}.

Definition toy_base : Z := 0x100000.
Definition toy_stack : Z := 0x7ffe0000.

Definition toy_regs (name : string) : Z :=
  if String.eqb name "cx" || String.eqb name "ecx" || String.eqb name "rcx"
  then 1 else 0.

(** The [w] bytes at address [a] of the loaded structure, as an unsigned
    little-endian integer. *)
Definition toy_load (e : Toy) (a : Z) (w : nat) : Z :=
  le_int (slice (toy_mem e) (Z.to_nat (a - toy_base)) w).

(** A world whose routines are given by what they do: [accesses cx] are the
    memory accesses of the routine entered with the counter register equal
    to [cx], and [final_cx e] is the value the bounded run leaves in the
    counter register when started in [e]. *)
Definition toy_world (is64 : bool) (accesses : Z → list MemAccess)
    (final_cx : Toy → Z) : World Toy := {|
  is_64bit := is64;
  find_ida_name := λ name, Ok (0x401000, name);
  locate_call_in_fn := λ _ _, Ok (0x402035, 0x402046);
  patgen := patgen_model;
  loadBytes := λ pat e, (toy_base, mkToy pat (toy_cx e));
  emulateRange := λ _ registers e,
    (accesses (default 0 (registers !! reg_cx is64)), e);
  iterate := λ _ pre e, let e1 := pre e in mkToy (toy_mem e1) (final_cx e1);
  regs := toy_regs;
  reg_write := λ r v e, if r =? 1 then mkToy (toy_mem e) v else e;
  getRegVal := λ name e, if toy_regs name =? 1 then toy_cx e else 0
|}.

Definition toy_init : PyState Toy := mkState (mkToy [] 0) [].

(** Prologue stores, then [mov eax, [edi+k]] with [edi] copied from the
    counter register. *)
Definition reads_field_first (w k : Z) (cx : Z) : list MemAccess :=
  [ mkAccess UC_MEM_WRITE (toy_stack - w) w 0;
    mkAccess UC_MEM_WRITE (toy_stack - 2 * w) w 0;
    mkAccess UC_MEM_READ (cx + k) w 0;
    mkAccess UC_MEM_READ (cx + k + 2 * w) w 0 ].

(** The routine loads a stack argument before it touches the structure. *)
Definition reads_stack_first (w k : Z) (cx : Z) : list MemAccess :=
  [ mkAccess UC_MEM_WRITE (toy_stack - w) w 0;
    mkAccess UC_MEM_READ (toy_stack + w) w 0;
    mkAccess UC_MEM_READ (cx + k) w 0 ].

(** The routine reads the stack and never the structure. *)
Definition reads_stack_only (w : Z) (cx : Z) : list MemAccess :=
  [ mkAccess UC_MEM_WRITE (toy_stack - w) w 0;
    mkAccess UC_MEM_READ (toy_stack + w) w 0 ].

(** The routine only stores. *)
Definition writes_only (w : Z) (cx : Z) : list MemAccess :=
  [ mkAccess UC_MEM_WRITE (toy_stack - w) w 0;
    mkAccess UC_MEM_WRITE (cx + 8) w 0 ].

(** [mov ecx, [ebx+k]] with [ebx] holding the structure pointer. *)
Definition loads_field (w : nat) (k : Z) (e : Toy) : Z :=
  toy_load e (toy_cx e + k) w.

(** [xor ecx, ecx] before the call. *)
Definition clears_cx (e : Toy) : Z := 0.

(** The x86 build named in the docstrings: pCompressedRegionPtrArray at
    0x1184, StoreOwnerProcess at 0x1254. *)
Definition win10_1809_x86 : World Toy :=
  toy_world false (reads_field_first 4 0x1184) (loads_field 4 0x1254).

(** The end-to-end scenario of the design description on 64-bit. *)
Definition scenario_x64 : World Toy :=
  toy_world true (reads_field_first 8 0x118) (loads_field 8 0x1c8).

(** A table filled by hand with the three methods for both bitnesses. *)
Definition toy_fns : gmap string (Resolver Toy) :=
  {[ "sks_ststore" := sks_ststore;
     "sks_compressedregionptrarray" := sks_compressedregionptrarray;
     "sks_storeownerprocess" := sks_storeownerprocess ]}.

Definition toy_arch_fns : gmap string (gmap string (Resolver Toy)) :=
  {[ "x86" := toy_fns; "x64" := toy_fns ]}.

(** The 8192 bytes both resolvers ask the generator for. *)
Definition probe_8192 : bytes := take (Z.to_nat 8192) cyclic.

(** A routine that fetches a stack argument first, and a call site at which
    the counter register was cleared. *)
Definition stack_first_x86 : World Toy :=
  toy_world false (reads_stack_first 4 0x10) clears_cx.

(** A routine that reads only its stack. *)
Definition stack_only_x86 : World Toy :=
  toy_world false (reads_stack_only 4) (loads_field 4 0x1254).

(** A routine that performs no read at all. *)
Definition writes_only_x86 : World Toy :=
  toy_world false (writes_only 4) (loads_field 4 0x1254).

(** An emulator that reports a counter register wider than 32 bits. *)
Definition wide_value_x86 : World Toy :=
  toy_world false (writes_only 4) (λ _, 2 ^ 32).

(** ** Further synthetic routines and tables *)

#[global] Instance level_eq_decision : EqDecision level.
Proof. solve_decision. Defined.

(** The routine dereferences a null pointer before it reads the field. *)
Definition reads_null_first (w k : Z) (cx : Z) : list MemAccess :=
  [ mkAccess UC_MEM_READ 0 w 0;
    mkAccess UC_MEM_WRITE (toy_stack - w) w 0;
    mkAccess UC_MEM_READ (cx + k) w 0 ].

(** The routine reads address 0 and nothing else. *)
Definition reads_null_only (w : Z) (cx : Z) : list MemAccess :=
  [ mkAccess UC_MEM_WRITE (toy_stack - w) w 0;
    mkAccess UC_MEM_READ 0 w 0 ].

Definition null_first_x86 : World Toy :=
  toy_world false (reads_null_first 4 0x1184) clears_cx.

Definition null_only_x86 : World Toy :=
  toy_world false (reads_null_only 4) clears_cx.

(** A database in which neither the routine nor the call is found. *)
Definition unlocated_x86 : World Toy := {|
  is_64bit := false;
  find_ida_name := λ _, Err (OtherError "no such name");
  locate_call_in_fn := λ _ _, Err (OtherError "no such call");
  patgen := patgen_model;
  loadBytes := loadBytes win10_1809_x86;
  emulateRange := emulateRange win10_1809_x86;
  iterate := iterate win10_1809_x86;
  regs := toy_regs;
  reg_write := reg_write win10_1809_x86;
  getRegVal := getRegVal win10_1809_x86
|}.

(** The same collaborators with an emulator that reports the reads of a
    run and keeps its stores to itself. *)
Definition reads_only {Emu} (W : World Emu) : World Emu := {|
  is_64bit := is_64bit W;
  find_ida_name := find_ida_name W;
  locate_call_in_fn := locate_call_in_fn W;
  patgen := patgen W;
  loadBytes := loadBytes W;
  emulateRange := λ start registers e,
    let '(trace, e') := emulateRange W start registers e in
    (filter (λ ev, accessType ev = UC_MEM_READ) trace, e');
  iterate := iterate W;
  regs := regs W;
  reg_write := reg_write W;
  getRegVal := getRegVal W
|}.

(** * Properties *)

(** ** Bytes and little-endian integers *)

Lemma Z_of_byte_range b : 0 ≤ Z_of_byte b < 256.
Proof.
  unfold Z_of_byte. pose proof (Byte.to_N_bounded b). lia.
Qed.

Lemma Z_of_byte_of_Z z : Z_of_byte (byte_of_Z z) = z mod 256.
Proof.
  unfold Z_of_byte, byte_of_Z.
  pose proof (Z.mod_pos_bound z 256 ltac:(lia)) as Hm.
  destruct (Byte.of_N (Z.to_N (z mod 256))) as [b|] eqn:Hb.
  - apply Byte.to_of_N in Hb. rewrite Hb. lia.
  - exfalso. pose proof (Byte.of_N_None_iff (Z.to_N (z mod 256))) as [Hn _].
    specialize (Hn Hb). lia.
Qed.

Lemma byte_of_Z_of_byte b : byte_of_Z (Z_of_byte b) = b.
Proof.
  unfold byte_of_Z, Z_of_byte. pose proof (Byte.to_N_bounded b).
  rewrite Z.mod_small by lia. rewrite N2Z.id, Byte.of_to_N. reflexivity.
Qed.

Lemma length_le_bytes n v : length (le_bytes n v) = n.
Proof. revert v. induction n as [|n IH]; intros v; simpl; [done|]. by rewrite IH. Qed.

Lemma le_int_le_bytes n v :
  0 ≤ v < 256 ^ Z.of_nat n → le_int (le_bytes n v) = v.
Proof.
  revert v. induction n as [|n IH]; intros v Hv.
  - simpl in *. lia.
  - cbn [le_bytes le_int]. rewrite Z_of_byte_of_Z.
    rewrite Nat2Z.inj_succ, Z.pow_succ_r in Hv by lia.
    rewrite IH.
    + pose proof (Z.div_mod v 256 ltac:(lia)). lia.
    + split; [apply Z.div_pos; lia|].
      apply Z.div_lt_upper_bound; lia.
Qed.

Lemma le_int_range bs : 0 ≤ le_int bs < 256 ^ Z.of_nat (length bs).
Proof.
  induction bs as [|b bs IH]; [simpl; lia|].
  cbn [le_int length]. rewrite Nat2Z.inj_succ, Z.pow_succ_r by lia.
  pose proof (Z_of_byte_range b). lia.
Qed.

Lemma le_bytes_le_int bs : le_bytes (length bs) (le_int bs) = bs.
Proof.
  induction bs as [|b bs IH]; [done|].
  cbn [le_int length le_bytes].
  pose proof (Z_of_byte_range b) as Hb.
  assert (Hq : (Z_of_byte b + 256 * le_int bs) / 256 = le_int bs).
  { rewrite Z.add_comm, Z.mul_comm, Z.div_add_l by lia.
    rewrite Z.div_small by lia. lia. }
  rewrite Hq, IH. f_equal.
  transitivity (byte_of_Z (Z_of_byte b)); [|apply byte_of_Z_of_byte].
  unfold byte_of_Z.
  replace ((Z_of_byte b + 256 * le_int bs) mod 256) with (Z_of_byte b mod 256);
    [reflexivity|].
  rewrite (Z.mul_comm 256), Z.mod_add by lia. reflexivity.
Qed.

(** ** Searching a byte string *)

Lemma length_slice (s : bytes) i w :
  length (slice s i w) = (w `min` (length s - i))%nat.
Proof. unfold slice. by rewrite length_take, length_drop. Qed.

Lemma startswith_take s sub :
  startswith s sub = true ↔ take (length sub) s = sub.
Proof.
  revert s. induction sub as [|b sub IH]; intros s.
  - rewrite take_0. by destruct s.
  - destruct s as [|c s]; simpl.
    + split; discriminate.
    + rewrite andb_true_iff, IH. split.
      * intros [Hbc Hs]. apply Byte.byte_dec_bl in Hbc. congruence.
      * intros [= -> Hs]. split; [by apply Byte.byte_dec_lb|done].
Qed.

Lemma find_from_Some s sub i k :
  find_from s sub i = Some k →
  ∃ d : nat, k = (i + d)%nat ∧ (d ≤ length s)%nat
    ∧ slice s d (length sub) = sub
    ∧ ∀ j : nat, (j < d)%nat → slice s j (length sub) ≠ sub.
Proof.
  revert i. induction s as [|c s IH]; intros i; cbn [find_from].
  - destruct (startswith [] sub) eqn:Hp; [|discriminate].
    intros [= <-]. exists 0%nat. split_and!; [lia|simpl; lia| |intros; lia].
    by apply startswith_take in Hp.
  - destruct (startswith (c :: s) sub) eqn:Hp.
    + intros [= <-]. exists 0%nat. split_and!; [lia|simpl; lia| |intros; lia].
      by apply startswith_take in Hp.
    + intros (d & -> & Hd & Hs & Hfirst)%IH.
      exists (S d). split_and!; [lia|simpl; lia|done|].
      intros [|j] Hj.
      * unfold slice. simpl drop. intros Ht%startswith_take. congruence.
      * apply (Hfirst j). lia.
Qed.

Lemma find_from_None s sub i :
  find_from s sub i = None → ∀ j : nat, slice s j (length sub) ≠ sub.
Proof.
  revert i. induction s as [|c s IH]; intros i; cbn [find_from].
  - destruct (startswith [] sub) eqn:Hp; [discriminate|]. intros _ j.
    unfold slice. rewrite drop_nil. intros Ht.
    destruct j; apply startswith_take in Ht; congruence.
  - destruct (startswith (c :: s) sub) eqn:Hp; [discriminate|].
    intros Hn [|j].
    + unfold slice. simpl drop. intros Ht%startswith_take. congruence.
    + apply (IH _ Hn j).
Qed.

(** [find] answers [-1] exactly when the sought bytes occur nowhere. *)
Lemma bytes_find_absent s sub :
  bytes_find s sub = -1 ↔ ∀ k, ¬ occurs_at s sub k.
Proof.
  unfold bytes_find. destruct (find_from s sub 0) as [k|] eqn:Hf.
  - split; [lia|]. intros Hno. exfalso.
    apply find_from_Some in Hf as (d & -> & Hd & Hs & _).
    apply (Hno d). split; [|done].
    pose proof (f_equal length Hs) as Hl. rewrite length_slice in Hl. lia.
  - split; [|done]. intros _ k [_ Hk]. by eapply find_from_None.
Qed.

(** Otherwise it answers the first index of an occurrence. *)
Lemma bytes_find_present s sub r :
  bytes_find s sub = r → r ≠ -1 →
  0 ≤ r ∧ occurs_at s sub (Z.to_nat r)
  ∧ ∀ k, occurs_at s sub k → r ≤ Z.of_nat k.
Proof.
  unfold bytes_find. destruct (find_from s sub 0) as [k|] eqn:Hf; [|congruence].
  intros <- _. apply find_from_Some in Hf as (d & -> & Hd & Hs & Hfirst).
  rewrite Nat2Z.id. simpl. split; [lia|]. split.
  - split; [|done].
    pose proof (f_equal length Hs) as Hl. rewrite length_slice in Hl. lia.
  - intros k [_ Hk]. destruct (decide (k < d)%nat) as [Hlt|]; [|lia].
    by destruct (Hfirst k Hlt).
Qed.

(** With unique windows an occurrence is the one [find] reports. *)
Lemma bytes_find_unique s sub k :
  window_unique (length sub) s → sub ≠ [] → occurs_at s sub k →
  bytes_find s sub = Z.of_nat k.
Proof.
  intros Hu Hne Hk.
  destruct (decide (bytes_find s sub = -1)) as [Hm|Hm].
  - by destruct (proj1 (bytes_find_absent s sub) Hm k).
  - destruct (bytes_find_present s sub _ eq_refl Hm) as (H0 & [Hr1 Hr2] & _).
    destruct Hk as [Hk1 Hk2].
    assert (0 < length sub)%nat by (destruct sub; [done|simpl; lia]).
    assert (Z.to_nat (bytes_find s sub) = k) as <-; [|lia].
    apply Hu; [lia|lia|congruence].
Qed.

(** ** The generated pattern *)

Lemma offset_of_window_take w s :
  (4 ≤ w)%nat → offset_of_window (take w s) = offset_of_window s.
Proof.
  intros Hw.
  do 4 (destruct w as [|w]; [lia|]).
  do 4 (destruct s as [|? s]; [reflexivity|]).
  reflexivity.
Qed.

Lemma windows_decode_from_spec s i n :
  windows_decode_from s i n = true →
  ∀ k : nat, (k < n)%nat → offset_of_window (drop k s) = i + Z.of_nat k.
Proof.
  revert s i. induction n as [|n IH]; intros s i Hc k Hk; [lia|].
  cbn [windows_decode_from] in Hc. apply andb_true_iff in Hc as [Hhd Htl].
  destruct k as [|k].
  - rewrite drop_0. lia.
  - destruct s as [|c s]; [discriminate|].
    cbn [drop]. rewrite (IH _ _ Htl) by lia. lia.
Qed.

Lemma length_cyclic : Z.of_nat (length cyclic) = 20280.
Proof. vm_compute. reflexivity. Qed.

Lemma cyclic_windows_decode :
  windows_decode_from cyclic 0 (Z.to_nat 20277) = true.
Proof. vm_compute. reflexivity. Qed.

(** In a prefix of the counter pattern a full window names its position. *)
Lemma offset_of_window_prefix n w i :
  (4 ≤ w)%nat → (i + 4 ≤ n)%nat → Z.of_nat n ≤ 20280 →
  offset_of_window (slice (take n cyclic) i w) = Z.of_nat i.
Proof.
  intros Hw Hi Hn. unfold slice.
  rewrite offset_of_window_take by done.
  replace n with (i + (n - i))%nat by lia.
  rewrite <- take_drop_commute.
  rewrite offset_of_window_take by lia.
  rewrite (windows_decode_from_spec _ _ _ cyclic_windows_decode) by lia.
  lia.
Qed.

Lemma take_cyclic_window_unique n w :
  (4 ≤ w)%nat → Z.of_nat n ≤ 20280 → window_unique w (take n cyclic).
Proof.
  intros Hw Hn i j. pose proof length_cyclic as Hc.
  rewrite length_take. intros Hi Hj Heq.
  pose proof (f_equal length Heq) as Hlen.
  rewrite !length_slice, !length_take in Hlen.
  destruct (decide (i + 4 ≤ n ∧ j + 4 ≤ n)%nat) as [[Hi4 Hj4]|Hshort]; [|lia].
  apply Nat2Z.inj.
  rewrite <- (offset_of_window_prefix n w i), <- (offset_of_window_prefix n w j)
    by done.
  by rewrite Heq.
Qed.

(** What the pattern generator promises to the resolvers. *)
Lemma patgen_model_unique size w pat :
  patgen_model size = Ok pat → (4 ≤ w)%nat →
  Z.of_nat (length pat) = size ∧ window_unique w pat.
Proof.
  unfold patgen_model.
  destruct ((0 <? size) && (size <=? 20280)) eqn:Hsz; [|discriminate].
  apply andb_true_iff in Hsz as [H0 H1].
  intros [= <-] Hw. pose proof length_cyclic as Hc. split.
  - rewrite length_take. lia.
  - apply take_cyclic_window_unique; [done|lia].
Qed.

(** ** The memory hook *)

(** Unfold the monad operations at the head of a run. *)
Ltac run_monad :=
  unfold mbind, M_bind, mret, M_ret, lift, raise, logger_debug, logger_info;
  cbn beta iota.

Section Hook.
Context {Emu : Type}.
Implicit Types (d : HookData) (s : PyState Emu) (trace : list MemAccess).

Lemma run_hook_cons {D} (hook : MemAccess → D → M Emu D) ev trace (d : D) s :
  run_hook hook (ev :: trace) d s =
  match hook ev d s with
  | (Ok d', s') => run_hook hook trace d' s'
  | (Err e, s') => (Err e, s')
  end.
Proof. reflexivity. Qed.

Lemma mHook_latched ev d s :
  truthy (offset d) = true → mHook ev d s = (Ok d, s).
Proof. intros Ht. unfold mHook. by rewrite Ht. Qed.

Lemma mHook_not_read ev d s :
  accessType ev ≠ UC_MEM_READ → mHook ev d s = (Ok d, s).
Proof.
  intros Hty%Z.eqb_neq. unfold mHook, UC_MEM_READ in *. rewrite Hty.
  by destruct (truthy (offset d)).
Qed.

Lemma mHook_read ev d s :
  truthy (offset d) = false → accessType ev = UC_MEM_READ →
  mHook ev d s =
    (Ok (mkHookData (Some (memAccessAddress ev)) (structAddr d)),
     mkState (fe s)
       (records s ++ [mkLog DEBUG "Mem read @ 0x{0:x}: {1}"
                        [memAccessAddress ev; memValue ev]])).
Proof.
  intros Ht Hty. unfold mHook, UC_MEM_READ in *.
  by rewrite Ht, Hty, Z.eqb_refl.
Qed.

(** Once a non-zero address is recorded the hook returns at once. *)
Lemma run_hook_latched trace d s :
  truthy (offset d) = true → run_hook mHook trace d s = (Ok d, s).
Proof.
  intros Ht. induction trace as [|ev trace IH]; [done|].
  by rewrite run_hook_cons, mHook_latched.
Qed.

(** Accesses that are not reads leave the captured data alone. *)
Lemma run_hook_no_read trace d s :
  Forall (λ ev, accessType ev ≠ UC_MEM_READ) trace →
  run_hook mHook trace d s = (Ok d, s).
Proof.
  induction 1 as [|ev trace Hev _ IH]; [done|].
  by rewrite run_hook_cons, mHook_not_read.
Qed.

(** The first read of a non-zero address is the one recorded, whatever
    follows it; the emulator is not touched by the hook. *)
Lemma run_hook_first_read pre ev post d s :
  truthy (offset d) = false →
  Forall (λ e, accessType e = UC_MEM_READ → memAccessAddress e = 0) pre →
  accessType ev = UC_MEM_READ → memAccessAddress ev ≠ 0 →
  ∃ s', run_hook mHook (pre ++ ev :: post) d s
        = (Ok (mkHookData (Some (memAccessAddress ev)) (structAddr d)), s')
      ∧ fe s' = fe s.
Proof.
  intros Hd Hpre Hev Hnz. revert d s Hd.
  induction Hpre as [|e pre He _ IH]; intros d s Hd; cbn [app].
  - rewrite run_hook_cons, mHook_read by done.
    eexists. split;
      [apply run_hook_latched; cbn; by apply negb_true_iff, Z.eqb_neq|done].
  - rewrite run_hook_cons.
    destruct (decide (accessType e = UC_MEM_READ)) as [Hty|Hty].
    + rewrite mHook_read by done. rewrite (He Hty).
      edestruct (IH (mkHookData (Some 0) (structAddr d))) as (s' & -> & Hfe);
        [done|]. by eexists.
    + rewrite mHook_not_read by done. by apply IH.
Qed.
End Hook.

(** ** The resolvers, step by step *)

Section Runs.
Context {Emu : Type}.
Variable W : World Emu.
Implicit Types (s : PyState Emu).

(** [sks_compressedregionptrarray] once the routine is located and the
    pattern generated: the hook sees the accesses of the routine run with
    the counter register at the structure, and the result is read off the
    captured data. *)
Lemma sks_compressedregionptrarray_run s fn_addr fn_name pat lp e1 trace e2 :
  find_ida_name W "SmStMapVirtualRegion" = Ok (fn_addr, fn_name) →
  patgen W 8192 = Ok pat →
  loadBytes W pat (fe s) = (lp, e1) →
  emulateRange W fn_addr {[ reg_cx (is_64bit W) := lp ]} e1 = (trace, e2) →
  sks_compressedregionptrarray W s =
    match run_hook mHook trace (mkHookData None lp) (mkState e2 (records s)) with
    | (Ok d, s') =>
        (match offset d with
         | Some a => Ok (a - structAddr d)
         | None => Err TypeError
         end, s')
    | (Err e, s') => (Err e, s')
    end.
Proof.
  intros Hfind Hpat Hload Hemu.
  unfold sks_compressedregionptrarray, fe_loadBytes, fe_emulateRange.
  run_monad. rewrite Hfind, Hpat, Hload. cbn [fe records]. rewrite Hemu.
  destruct (run_hook _ _ _ _) as [[d|e] s']; [|done].
  by destruct (offset d).
Qed.

(** [sks_storeownerprocess] once the call is located and the pattern
    generated. *)
Lemma sks_storeownerprocess_run s startAddr endAddr pat base e1 e2 v :
  locate_call_in_fn W "?SmStDirectRead@?$SMKM_STORE" "KiStackAttachProcess"
    = Ok (startAddr, endAddr) →
  patgen W 8192 = Ok pat →
  loadBytes W pat (fe s) = (base, e1) →
  iterate W [endAddr] (reg_write W (regs W "cx") base) e1 = e2 →
  getRegVal W (reg_cx (is_64bit W)) e2 = v →
  sks_storeownerprocess W s =
    (match struct_pack (struct_fmt (is_64bit W)) v with
     | Ok packed => Ok (bytes_find pat packed)
     | Err e => Err e
     end, mkState e2 (records s)).
Proof.
  intros Hloc Hpat Hload Hit Hreg.
  unfold sks_storeownerprocess, fe_loadBytes, fe_iterate, fe_getRegVal, pHook.
  run_monad. rewrite Hloc, Hpat, Hload. cbn [fe records].
  rewrite Hit, Hreg. by destruct (struct_pack _ _).
Qed.

(** The format chosen for a bitness packs exactly the values of that
    pointer width, least significant byte first. *)
Lemma struct_pack_fmt is64 v :
  struct_pack (struct_fmt is64) v =
    if (0 <=? v) && (v <? 256 ^ Z.of_nat (ptr_width is64))
    then Ok (le_bytes (ptr_width is64) v) else Err StructError.
Proof. by destruct is64. Qed.

Lemma sks_ststore_zero_eq s : sks_ststore W s = (Ok 0, s).
Proof. reflexivity. Qed.

(** Calls through a table that holds the methods reach the methods. *)
Lemma call_arch_fn_registered arch_fns s :
  registered W arch_fns →
  call_arch_fn W arch_fns "sks_ststore" s = sks_ststore W s
  ∧ call_arch_fn W arch_fns "sks_compressedregionptrarray" s
    = sks_compressedregionptrarray W s
  ∧ call_arch_fn W arch_fns "sks_storeownerprocess" s
    = sks_storeownerprocess W s.
Proof.
  intros (fns & Harch & H1 & H2 & H3).
  unfold call_arch_fn, getitem. rewrite Harch. run_monad.
  by rewrite H1, H2, H3.
Qed.
End Runs.

(** ** The address-interception resolver *)

(** C1 (amended).  [sks_compressedregionptrarray] seeds the register [rcx]
    or [ecx] with the base of the loaded pattern and emulates the located
    routine under a memory hook.  The hook records the address of the first
    read it is told of, wherever that non-zero address lies, and ignores
    every later access; the result is the recorded address minus the base.
    In particular, when the first read of the routine is at base + k, the
    result is k. *)
Theorem sks_compressedregionptrarray_first_read {Emu} (W : World Emu) s
    fn_addr fn_name pat lp e1 pre ev post e2 :
  find_ida_name W "SmStMapVirtualRegion" = Ok (fn_addr, fn_name) →
  patgen W 8192 = Ok pat →
  loadBytes W pat (fe s) = (lp, e1) →
  emulateRange W fn_addr {[ (if is_64bit W then "rcx" else "ecx") := lp ]} e1
    = (pre ++ ev :: post, e2) →
  Forall (λ e, accessType e ≠ UC_MEM_READ) pre →
  accessType ev = UC_MEM_READ →
  memAccessAddress ev ≠ 0 →
  (sks_compressedregionptrarray W s).1 = Ok (memAccessAddress ev - lp)
  ∧ fe (sks_compressedregionptrarray W s).2 = e2
  ∧ ∀ k, memAccessAddress ev = lp + k →
      (sks_compressedregionptrarray W s).1 = Ok k.
Proof.
  intros Hfind Hpat Hload Hemu Hpre Hev Hnz.
  rewrite (sks_compressedregionptrarray_run W s _ _ _ _ _ _ _ Hfind Hpat Hload Hemu).
  assert (Hpre' : Forall (λ e, accessType e = UC_MEM_READ → memAccessAddress e = 0) pre).
  { eapply Forall_impl; [exact Hpre|]. by intros e Hne Heq. }
  destruct (run_hook_first_read pre ev post (mkHookData None lp)
              (mkState e2 (records s)) eq_refl Hpre' Hev Hnz) as (s' & -> & Hfe).
  cbn. split_and!; [done|done|].
  intros k ->. f_equal. lia.
Qed.

Lemma sks_compressedregionptrarray_first_read_witness :
  (sks_compressedregionptrarray win10_1809_x86 toy_init).1 = Ok 0x1184.
Proof.
  refine (proj2 (proj2 (sks_compressedregionptrarray_first_read
    win10_1809_x86 toy_init 0x401000 "SmStMapVirtualRegion" probe_8192
    toy_base (mkToy probe_8192 0)
    [ mkAccess UC_MEM_WRITE (toy_stack - 4) 4 0;
      mkAccess UC_MEM_WRITE (toy_stack - 2 * 4) 4 0 ]
    (mkAccess UC_MEM_READ (toy_base + 0x1184) 4 0)
    [ mkAccess UC_MEM_READ (toy_base + 0x1184 + 2 * 4) 4 0 ]
    (mkToy probe_8192 0) _ _ _ _ _ _ _)) 0x1184 _).
  - reflexivity.
  - reflexivity.
  - reflexivity.
  - vm_compute. reflexivity.
  - repeat constructor; discriminate.
  - reflexivity.
  - vm_compute. discriminate.
  - reflexivity.
Defined.

(** The claim as first stated fails: the first read inside the pattern is
    at base + 0x10, yet the stack read before it decides the result. *)
Lemma sks_compressedregionptrarray_range_cex :
  resolve_by_access_spec toy_base 8192 (reads_stack_first 4 0x10 toy_base)
    = Some 0x10
  ∧ (sks_compressedregionptrarray stack_first_x86 toy_init).1
    = Ok (toy_stack + 4 - toy_base)
  ∧ toy_stack + 4 - toy_base ≠ 0x10.
Proof. vm_compute. split_and!; [reflexivity|reflexivity|discriminate]. Qed.

(** C4 (amended).  When the emulation reports no read at all,
    [sks_compressedregionptrarray] ends with the [TypeError] of subtracting
    from [None] and returns no offset. *)
Theorem sks_compressedregionptrarray_no_read {Emu} (W : World Emu) s
    fn_addr fn_name pat lp e1 trace e2 :
  find_ida_name W "SmStMapVirtualRegion" = Ok (fn_addr, fn_name) →
  patgen W 8192 = Ok pat →
  loadBytes W pat (fe s) = (lp, e1) →
  emulateRange W fn_addr {[ (if is_64bit W then "rcx" else "ecx") := lp ]} e1 = (trace, e2) →
  Forall (λ ev, accessType ev ≠ UC_MEM_READ) trace →
  sks_compressedregionptrarray W s = (Err TypeError, mkState e2 (records s)).
Proof.
  intros Hfind Hpat Hload Hemu Htrace.
  rewrite (sks_compressedregionptrarray_run W s _ _ _ _ _ _ _ Hfind Hpat Hload Hemu).
  by rewrite run_hook_no_read.
Qed.

Lemma sks_compressedregionptrarray_no_read_witness :
  sks_compressedregionptrarray writes_only_x86 toy_init
  = (Err TypeError, mkState (mkToy probe_8192 0) []).
Proof.
  refine (sks_compressedregionptrarray_no_read writes_only_x86 toy_init
    0x401000 "SmStMapVirtualRegion" probe_8192 toy_base (mkToy probe_8192 0)
    (writes_only 4 toy_base) (mkToy probe_8192 0) _ _ _ _ _).
  - reflexivity.
  - reflexivity.
  - reflexivity.
  - vm_compute. reflexivity.
  - repeat constructor; discriminate.
Defined.

(** The claim as first stated fails: no read falls inside the pattern, the
    contract asks for a failure, and a number is returned. *)
Lemma sks_compressedregionptrarray_no_access_cex :
  resolve_by_access_spec toy_base 8192 (reads_stack_only 4 toy_base) = None
  ∧ (sks_compressedregionptrarray stack_only_x86 toy_init).1
    = Ok (toy_stack + 4 - toy_base).
Proof. vm_compute. split; reflexivity. Qed.

(** ** The value-correlation resolver *)

(** A window that lies inside the pattern is the packing of the integer it
    denotes. *)
Lemma slice_is_packing (pat : bytes) (k : Z) (w : nat) :
  0 ≤ k → k + Z.of_nat w ≤ Z.of_nat (length pat) →
  let win := slice pat (Z.to_nat k) w in
  length win = w
  ∧ 0 ≤ le_int win < 256 ^ Z.of_nat w
  ∧ le_bytes w (le_int win) = win
  ∧ occurs_at pat win (Z.to_nat k).
Proof.
  intros Hk Hkw win.
  assert (Hlen : length win = w) by (unfold win; rewrite length_slice; lia).
  split; [done|]. split; [|split].
  - pose proof (le_int_range win) as Hr. by rewrite Hlen in Hr.
  - pose proof (le_bytes_le_int win) as Hp. by rewrite Hlen in Hp.
  - split; [lia|]. by rewrite Hlen.
Qed.

(** C2.  [sks_storeownerprocess] lets the pre-emulation hook write the base
    of the loaded pattern to the counter register, runs the emulator to the
    end address of the located call, reads [rcx] (or [ecx]), packs the
    value little-endian in 8 (or 4) bytes and searches the pattern for
    those bytes: when the register holds the integer of the window at [k],
    the result is the index of a match, and it is [k] itself when windows
    of that width are unique. *)
Theorem sks_storeownerprocess_value_roundtrip {Emu} (W : World Emu) s
    startAddr endAddr pat base e1 e2 v k :
  locate_call_in_fn W "?SmStDirectRead@?$SMKM_STORE" "KiStackAttachProcess"
    = Ok (startAddr, endAddr) →
  patgen W 8192 = Ok pat →
  loadBytes W pat (fe s) = (base, e1) →
  iterate W [endAddr] (reg_write W (regs W "cx") base) e1 = e2 →
  getRegVal W (if is_64bit W then "rcx" else "ecx") e2 = v →
  let w := if is_64bit W then 8%nat else 4%nat in
  0 ≤ k → k + Z.of_nat w ≤ Z.of_nat (length pat) →
  v = le_int (slice pat (Z.to_nat k) w) →
  ∃ r, sks_storeownerprocess W s = (Ok r, mkState e2 (records s))
    ∧ 0 ≤ r ≤ k
    ∧ slice pat (Z.to_nat r) w = le_bytes w v
    ∧ (window_unique w pat → r = k).
Proof.
  intros Hloc Hpat Hload Hit Hreg w Hk Hkw Hv.
  rewrite (sks_storeownerprocess_run W s _ _ _ _ _ _ _ Hloc Hpat Hload Hit Hreg).
  rewrite struct_pack_fmt. fold (ptr_width (is_64bit W)) in w. fold w.
  destruct (slice_is_packing pat k w Hk Hkw) as (Hlen & Hrange & Hpack & Hocc).
  rewrite <- Hv in Hrange, Hpack.
  replace ((0 <=? v) && (v <? 256 ^ Z.of_nat w)) with true
    by (symmetry; apply andb_true_iff; lia).
  rewrite Hpack. eexists. split; [reflexivity|].
  set (win := slice pat (Z.to_nat k) w) in *.
  assert (Hm : bytes_find pat win ≠ -1).
  { intros Habs. by apply (proj1 (bytes_find_absent pat win) Habs (Z.to_nat k)). }
  destruct (bytes_find_present pat win _ eq_refl Hm) as (H0 & [_ Hr] & Hfirst).
  specialize (Hfirst _ Hocc). rewrite Hlen in Hr.
  split; [lia|]. split; [done|].
  intros Hu.
  assert (bytes_find pat win = Z.of_nat (Z.to_nat k)) as ->; [|lia].
  apply bytes_find_unique; [by rewrite Hlen| |done].
  intros Hnil. rewrite Hnil in Hlen. unfold w in Hlen.
  destruct (is_64bit W); discriminate.
Qed.

Lemma sks_storeownerprocess_value_roundtrip_witness :
  (sks_storeownerprocess win10_1809_x86 toy_init).1 = Ok 0x1254.
Proof.
  destruct (sks_storeownerprocess_value_roundtrip win10_1809_x86 toy_init
    0x402035 0x402046 probe_8192 toy_base (mkToy probe_8192 0) _ _ 0x1254
    eq_refl eq_refl eq_refl eq_refl eq_refl) as (r & Hrun & _ & _ & Hunique).
  - lia.
  - apply Z.leb_le. vm_compute. reflexivity.
  - vm_compute. reflexivity.
  - rewrite Hrun. cbn [fst]. f_equal. apply Hunique.
    apply (patgen_model_unique 8192 4 probe_8192 eq_refl). lia.
Defined.

(** C5 (amended).  When the packed final register value occurs nowhere in
    the pattern, [sks_storeownerprocess] does not raise: it returns [-1],
    the not-found answer of the search.  Every result it returns for a
    value of the pointer width is either [-1] or a non-negative byte offset
    at which the packed value occurs. *)
Theorem sks_storeownerprocess_not_found {Emu} (W : World Emu) s
    startAddr endAddr pat base e1 e2 v :
  locate_call_in_fn W "?SmStDirectRead@?$SMKM_STORE" "KiStackAttachProcess"
    = Ok (startAddr, endAddr) →
  patgen W 8192 = Ok pat →
  loadBytes W pat (fe s) = (base, e1) →
  iterate W [endAddr] (reg_write W (regs W "cx") base) e1 = e2 →
  getRegVal W (if is_64bit W then "rcx" else "ecx") e2 = v →
  let w := if is_64bit W then 8%nat else 4%nat in
  0 ≤ v < 256 ^ Z.of_nat w →
  ∃ r, sks_storeownerprocess W s = (Ok r, mkState e2 (records s))
    ∧ (r = -1 ↔ ∀ k, ¬ occurs_at pat (le_bytes w v) k)
    ∧ (r ≠ -1 → 0 ≤ r ∧ occurs_at pat (le_bytes w v) (Z.to_nat r)).
Proof.
  intros Hloc Hpat Hload Hit Hreg w Hv.
  rewrite (sks_storeownerprocess_run W s _ _ _ _ _ _ _ Hloc Hpat Hload Hit Hreg).
  rewrite struct_pack_fmt. fold (ptr_width (is_64bit W)) in w. fold w.
  replace ((0 <=? v) && (v <? 256 ^ Z.of_nat w)) with true
    by (symmetry; apply andb_true_iff; lia).
  eexists. split; [reflexivity|]. split.
  - apply bytes_find_absent.
  - intros Hr. destruct (bytes_find_present pat _ _ eq_refl Hr) as (? & ? & _).
    done.
Qed.

Lemma sks_storeownerprocess_not_found_witness :
  sks_storeownerprocess stack_first_x86 toy_init
  = (Ok (-1), mkState (mkToy probe_8192 0) []).
Proof.
  destruct (sks_storeownerprocess_not_found stack_first_x86 toy_init
    0x402035 0x402046 probe_8192 toy_base (mkToy probe_8192 0) _ 0
    eq_refl eq_refl eq_refl eq_refl eq_refl) as (r & Hrun & Habsent & _).
  - split; [lia|reflexivity].
  - rewrite Hrun. f_equal. f_equal. apply Habsent.
    apply bytes_find_absent. vm_compute. reflexivity.
Defined.

(** The claim as first stated fails: four zero bytes occur nowhere in the
    pattern, and the resolver answers with the number [-1]. *)
Lemma sks_storeownerprocess_sentinel_cex :
  (∀ k, ¬ occurs_at probe_8192 (le_bytes 4 0) k)
  ∧ getRegVal stack_first_x86 "ecx"
      (sks_storeownerprocess stack_first_x86 toy_init).2.(fe) = 0
  ∧ (sks_storeownerprocess stack_first_x86 toy_init).1 = Ok (-1).
Proof.
  split; [|split].
  - apply bytes_find_absent. vm_compute. reflexivity.
  - vm_compute. reflexivity.
  - vm_compute. reflexivity.
Qed.

(** C9.  A final register value outside the pointer width, negative or at
    least 2^32 on 32-bit (2^64 on 64-bit), makes the packing step raise
    [struct.error]: no offset is produced for it. *)
Theorem sks_storeownerprocess_out_of_width {Emu} (W : World Emu) s
    startAddr endAddr pat base e1 e2 v :
  locate_call_in_fn W "?SmStDirectRead@?$SMKM_STORE" "KiStackAttachProcess"
    = Ok (startAddr, endAddr) →
  patgen W 8192 = Ok pat →
  loadBytes W pat (fe s) = (base, e1) →
  iterate W [endAddr] (reg_write W (regs W "cx") base) e1 = e2 →
  getRegVal W (if is_64bit W then "rcx" else "ecx") e2 = v →
  v < 0 ∨ (if is_64bit W then 2 ^ 64 else 2 ^ 32) ≤ v →
  sks_storeownerprocess W s = (Err StructError, mkState e2 (records s)).
Proof.
  intros Hloc Hpat Hload Hit Hreg Hv.
  rewrite (sks_storeownerprocess_run W s _ _ _ _ _ _ _ Hloc Hpat Hload Hit Hreg).
  rewrite struct_pack_fmt.
  replace ((0 <=? v) && (v <? 256 ^ Z.of_nat (ptr_width (is_64bit W))))
    with false; [done|].
  symmetry. apply andb_false_iff.
  destruct Hv as [Hneg|Hbig]; [left; apply Z.leb_gt; lia|].
  right. apply Z.ltb_ge.
  destruct (is_64bit W); cbn [ptr_width];
    [change (256 ^ Z.of_nat 8) with (2 ^ 64)
    |change (256 ^ Z.of_nat 4) with (2 ^ 32)]; exact Hbig.
Qed.

Lemma sks_storeownerprocess_out_of_width_witness :
  sks_storeownerprocess wide_value_x86 toy_init
  = (Err StructError, mkState (mkToy probe_8192 (2 ^ 32)) []).
Proof.
  refine (sks_storeownerprocess_out_of_width wide_value_x86 toy_init
    0x402035 0x402046 probe_8192 toy_base (mkToy probe_8192 0)
    (mkToy probe_8192 (2 ^ 32)) (2 ^ 32) eq_refl eq_refl eq_refl eq_refl
    eq_refl _).
  right. cbn. lia.
Defined.

(** ** The pattern generator *)

(** C3.  Every pattern the generator returns, the 8192-byte one of the
    resolvers among them, has pairwise different windows of 4 bytes and of
    8 bytes: windows at two different positions differ, and searching the
    pattern for a full window gives back its position. *)
Theorem patgen_window_uniqueness (size : Z) (w : nat) (pat : bytes) :
  w = 4%nat ∨ w = 8%nat →
  patgen_model size = Ok pat →
  Z.of_nat (length pat) = size
  ∧ (∀ i j : nat, Z.of_nat i < size → Z.of_nat j < size → i ≠ j →
       slice pat i w ≠ slice pat j w)
  ∧ (∀ i : nat, Z.of_nat i + Z.of_nat w ≤ size →
       bytes_find pat (slice pat i w) = Z.of_nat i).
Proof.
  intros Hw Hpat.
  destruct (patgen_model_unique size w pat Hpat) as [Hlen Hu]; [lia|].
  split; [done|]. split.
  - intros i j Hi Hj Hne Heq. apply Hne, Hu; [lia|lia|done].
  - intros i Hi.
    destruct (slice_is_packing pat (Z.of_nat i) w) as (Hl & _ & _ & Hocc);
      [lia|lia|]. rewrite Nat2Z.id in Hl, Hocc.
    apply bytes_find_unique; [by rewrite Hl| |done].
    intros Hnil. rewrite Hnil in Hl. simpl in Hl. lia.
Qed.

Lemma patgen_window_uniqueness_witness :
  Z.of_nat (length probe_8192) = 8192
  ∧ slice probe_8192 0 4 ≠ slice probe_8192 3 4
  ∧ bytes_find probe_8192 (slice probe_8192 6 4) = 6.
Proof.
  destruct (patgen_window_uniqueness 8192 4 probe_8192 (or_introl eq_refl)
              eq_refl) as (Hlen & Hdiff & Hfind).
  split; [exact Hlen|]. split.
  - apply Hdiff; [lia|lia|discriminate].
  - apply (Hfind 6%nat). lia.
Defined.

(** ** Dispatch and the aggregate dump *)

Lemma toy_arch_fns_registered (W : World Toy) : registered W toy_arch_fns.
Proof.
  exists toy_fns. unfold toy_arch_fns, toy_fns, arch_key.
  split; [|by simplify_map_eq].
  destruct (is_64bit W); by simplify_map_eq.
Qed.

(** The class body enters each method under both bitnesses, whatever the
    table held before. *)
Lemma SmkmStore_class_lookup {Emu}
    (arch_fns : gmap string (gmap string (Resolver Emu))) (arch : string) :
  arch = "x86" ∨ arch = "x64" →
  ∃ fns, SmkmStore_class arch_fns !! arch = Some fns
    ∧ fns !! "sks_ststore" = Some sks_ststore
    ∧ fns !! "sks_compressedregionptrarray" = Some sks_compressedregionptrarray
    ∧ fns !! "sks_storeownerprocess" = Some sks_storeownerprocess.
Proof.
  unfold SmkmStore_class, arch32, arch64, register.
  intros [-> | ->]; simplify_map_eq; eexists; (split; [reflexivity|]);
    by simplify_map_eq.
Qed.

(** C8.  [sks_ststore] returns 0 on every invocation, whatever the
    architecture and the collaborators, and leaves the emulator and the log
    as they were: the offset of ST_STORE is fixed at 0.  The same holds
    when it is reached through the table of either architecture. *)
Theorem sks_ststore_zero {Emu} (W : World Emu) (s : PyState Emu) :
  sks_ststore W s = (Ok 0, s)
  ∧ ∀ arch_fns, registered W arch_fns →
      call_arch_fn W arch_fns "sks_ststore" s = (Ok 0, s).
Proof.
  split; [reflexivity|].
  intros arch_fns Hreg.
  by destruct (call_arch_fn_registered W arch_fns s Hreg) as (-> & _ & _).
Qed.

Lemma sks_ststore_zero_witness :
  call_arch_fn scenario_x64 toy_arch_fns "sks_ststore" toy_init
    = (Ok 0, toy_init)
  ∧ call_arch_fn win10_1809_x86 toy_arch_fns "sks_ststore" toy_init
    = (Ok 0, toy_init).
Proof.
  split.
  - apply (proj2 (sks_ststore_zero scenario_x64 toy_init)).
    apply toy_arch_fns_registered.
  - apply (proj2 (sks_ststore_zero win10_1809_x86 toy_init)).
    apply toy_arch_fns_registered.
Defined.

(** C10.  For either bitness, the table built by the class body holds an
    entry for each of the three field names, namely the method of that
    name, so the calls [_dump] makes through the table reach the methods
    and never miss an entry. *)
Theorem SmkmStore_class_registers_both {Emu}
    (arch_fns : gmap string (gmap string (Resolver Emu))) :
  (∀ arch, arch = "x86" ∨ arch = "x64" →
     ∃ fns, SmkmStore_class arch_fns !! arch = Some fns
       ∧ fns !! "sks_ststore" = Some sks_ststore
       ∧ fns !! "sks_compressedregionptrarray"
         = Some sks_compressedregionptrarray
       ∧ fns !! "sks_storeownerprocess" = Some sks_storeownerprocess)
  ∧ (∀ (W : World Emu) (s : PyState Emu),
       call_arch_fn W (SmkmStore_class arch_fns) "sks_ststore" s
         = sks_ststore W s
       ∧ call_arch_fn W (SmkmStore_class arch_fns)
           "sks_compressedregionptrarray" s
         = sks_compressedregionptrarray W s
       ∧ call_arch_fn W (SmkmStore_class arch_fns) "sks_storeownerprocess" s
         = sks_storeownerprocess W s).
Proof.
  split; [apply SmkmStore_class_lookup|].
  intros W s. apply call_arch_fn_registered. unfold registered, arch_key.
  apply SmkmStore_class_lookup. destruct (is_64bit W); auto.
Qed.

Lemma SmkmStore_class_registers_both_witness :
  ∃ fns : gmap string (Resolver Toy),
    SmkmStore_class ∅ !! "x64" = Some fns
    ∧ fns !! "sks_ststore" = Some sks_ststore
    ∧ fns !! "sks_compressedregionptrarray" = Some sks_compressedregionptrarray
    ∧ fns !! "sks_storeownerprocess" = Some sks_storeownerprocess.
Proof.
  apply (proj1 (SmkmStore_class_registers_both ∅) "x64"). by right.
Defined.

(** C6 (amended).  [_dump] resolves the three fields in a fixed order and
    logs each result as soon as it has it.  An exception raised by a
    resolver leaves [_dump] at once: what was resolved before is already
    logged, the fields after it are neither resolved nor logged. *)
Theorem dump_stops_at_first_failure {Emu} (W : World Emu)
    (arch_fns : gmap string (gmap string (Resolver Emu))) (s : PyState Emu) :
  registered W arch_fns →
  let s1 := mkState (fe s) (records s ++ [mkLog INFO "StStore: {0:#x}" [0]]) in
  (∀ e s2, sks_compressedregionptrarray W s1 = (Err e, s2) →
     _dump W arch_fns s = (Err e, s2))
  ∧ (∀ v s2, sks_compressedregionptrarray W s1 = (Ok v, s2) →
       let s3 := mkState (fe s2)
         (records s2 ++ [mkLog INFO "pCompressedRegionPtrArray: {0:#x}" [v]]) in
       (∀ e s4, sks_storeownerprocess W s3 = (Err e, s4) →
          _dump W arch_fns s = (Err e, s4))
       ∧ (∀ v' s4, sks_storeownerprocess W s3 = (Ok v', s4) →
            _dump W arch_fns s =
              (Ok (), mkState (fe s4)
                 (records s4 ++ [mkLog INFO "StoreOwnerProcess: {0:#x}" [v']])))).
Proof.
  intros Hreg s1.
  assert (Hdump : _dump W arch_fns s =
    match sks_compressedregionptrarray W s1 with
    | (Ok v, s2) =>
        match sks_storeownerprocess W
                (mkState (fe s2)
                   (records s2 ++ [mkLog INFO "pCompressedRegionPtrArray: {0:#x}" [v]]))
        with
        | (Ok v', s4) =>
            (Ok (), mkState (fe s4)
               (records s4 ++ [mkLog INFO "StoreOwnerProcess: {0:#x}" [v']]))
        | (Err e, s4) => (Err e, s4)
        end
    | (Err e, s2) => (Err e, s2)
    end).
  { unfold _dump. unfold mbind at 1, M_bind at 1.
    destruct (call_arch_fn_registered W arch_fns s Hreg) as (-> & _ & _).
    rewrite sks_ststore_zero_eq. unfold mbind at 1, M_bind at 1, logger_info at 1.
    cbn beta iota. fold s1. unfold mbind at 1, M_bind at 1.
    destruct (call_arch_fn_registered W arch_fns s1 Hreg) as (_ & -> & _).
    destruct (sks_compressedregionptrarray W s1) as [[v|e] s2]; [|done].
    unfold mbind at 1, M_bind at 1, logger_info at 1. cbn beta iota.
    unfold mbind at 1, M_bind at 1.
    destruct (call_arch_fn_registered W arch_fns
      (mkState (fe s2)
         (records s2 ++ [mkLog INFO "pCompressedRegionPtrArray: {0:#x}" [v]]))
      Hreg) as (_ & _ & ->).
    by destruct (sks_storeownerprocess W _) as [[v'|e] s4]. }
  split.
  - intros e s2 Hc. by rewrite Hdump, Hc.
  - intros v s2 Hc s3. rewrite Hdump, Hc. fold s3.
    split; [intros e s4 Ho|intros v' s4 Ho]; by rewrite Ho.
Qed.

Lemma dump_stops_at_first_failure_witness :
  _dump writes_only_x86 toy_arch_fns toy_init
  = (Err TypeError,
     mkState (mkToy probe_8192 0) [mkLog INFO "StStore: {0:#x}" [0]]).
Proof.
  apply (proj1 (dump_stops_at_first_failure writes_only_x86 toy_arch_fns
                  toy_init (toy_arch_fns_registered writes_only_x86))).
  vm_compute. reflexivity.
Defined.

(** The claim as first stated fails: the owner-process field resolves on
    its own, but the failure of the field before it ends the dump, which
    reports nothing about the fields that remain. *)
Lemma dump_isolation_cex :
  (_dump writes_only_x86 toy_arch_fns toy_init).1 = Err TypeError
  ∧ records (_dump writes_only_x86 toy_arch_fns toy_init).2
    = [mkLog INFO "StStore: {0:#x}" [0]]
  ∧ (sks_storeownerprocess writes_only_x86
       (_dump writes_only_x86 toy_arch_fns toy_init).2).1 = Ok 0x1254.
Proof. vm_compute. split_and!; reflexivity. Qed.

Section Dispatch.
Context {Emu : Type}.
Variable W : World Emu.


End Dispatch.



(** * Further properties of the code *)

(** ** What the memory hook does on any run *)

Section HookShape.
Context {Emu : Type}.
Implicit Types (d : HookData) (s : PyState Emu) (trace : list MemAccess).

Lemma mkState_records_nil s : mkState (fe s) (records s ++ []) = s.
Proof. destruct s. cbn. by rewrite app_nil_r. Qed.

(** On every run the hook ends normally with the structure address it was
    given, and the log grows by debug records only, at most one per read. *)
Lemma run_hook_mHook_shape trace d s :
  ∃ d' l, run_hook mHook trace d s = (Ok d', mkState (fe s) (records s ++ l))
    ∧ structAddr d' = structAddr d
    ∧ Forall (λ r, log_level r = DEBUG) l
    ∧ (length l ≤ length (filter (λ ev, accessType ev = UC_MEM_READ) trace))%nat.
Proof.
  revert d s. induction trace as [|ev trace IH]; intros d s.
  - exists d, []. cbn. by rewrite mkState_records_nil.
  - rewrite run_hook_cons, filter_cons.
    destruct (truthy (offset d)) eqn:Ht.
    + rewrite mHook_latched by done.
      destruct (IH d s) as (d' & l & -> & Hsa & Hl & Hlen).
      exists d', l. split_and!; [done|done|done|].
      destruct (decide _); cbn; lia.
    + destruct (decide (accessType ev = UC_MEM_READ)) as [Hty|Hty].
      * rewrite mHook_read by done.
        destruct (IH (mkHookData (Some (memAccessAddress ev)) (structAddr d))
                    (mkState (fe s)
                       (records s ++ [mkLog DEBUG "Mem read @ 0x{0:x}: {1}"
                                        [memAccessAddress ev; memValue ev]])))
          as (d' & l & -> & Hsa & Hl & Hlen).
        eexists d', (_ :: l). cbn [fe records].
        rewrite <- app_assoc. split_and!; [done|done| |cbn; lia].
        by constructor.
      * rewrite mHook_not_read by done.
        destruct (IH d s) as (d' & l & -> & Hsa & Hl & Hlen).
        by exists d', l.
Qed.

(** Reads of address 0 are recorded without closing the hook. *)
Lemma run_hook_null_reads trace d s :
  Forall (λ e, accessType e = UC_MEM_READ → memAccessAddress e = 0) trace →
  truthy (offset d) = false →
  ∃ d' s', run_hook mHook trace d s = (Ok d', s')
    ∧ structAddr d' = structAddr d
    ∧ fe s' = fe s
    ∧ (offset d' = Some 0
       ∨ offset d' = offset d
         ∧ Forall (λ e, accessType e ≠ UC_MEM_READ) trace).
Proof.
  intros Htrace. revert d s.
  induction Htrace as [|e trace He _ IH]; intros d s Hd.
  - exists d, s. split_and!; [done|done|done|]. right. by split.
  - rewrite run_hook_cons.
    destruct (decide (accessType e = UC_MEM_READ)) as [Hty|Hty].
    + rewrite mHook_read by done. rewrite (He Hty).
      edestruct (IH (mkHookData (Some 0) (structAddr d))) as
        (d' & s' & -> & Hsa & Hfe & Hoff); [done|].
      exists d', s'. split_and!; [done|done|done|].
      left. by destruct Hoff as [?|[? _]].
    + rewrite mHook_not_read by done.
      destruct (IH d s Hd) as (d' & s' & -> & Hsa & Hfe & Hoff).
      exists d', s'. split_and!; [done|done|done|].
      destruct Hoff as [?|[? ?]]; [by left|right]. split; [done|by constructor].
Qed.

(** With a positive base and every read inside the loaded bytes, the hook
    records what the address-interception contract prescribes. *)
Lemma run_hook_in_range lp len trace s :
  0 < lp →
  Forall (λ e, accessType e = UC_MEM_READ →
               lp ≤ memAccessAddress e < lp + len) trace →
  ∃ s', run_hook mHook trace (mkHookData None lp) s
        = (Ok (mkHookData ((λ k, k + lp) <$> resolve_by_access_spec lp len trace)
                 lp), s')
      ∧ fe s' = fe s.
Proof.
  intros Hlp Htrace. revert s.
  induction Htrace as [|e trace He _ IH]; intros s.
  - by exists s.
  - rewrite run_hook_cons. cbn [resolve_by_access_spec].
    destruct (decide (accessType e = UC_MEM_READ)) as [Hty|Hty].
    + specialize (He Hty). rewrite mHook_read by done.
      rewrite Hty, Z.eqb_refl.
      rewrite (proj2 (Z.leb_le lp (memAccessAddress e))) by lia.
      rewrite (proj2 (Z.ltb_lt (memAccessAddress e) (lp + len))) by lia.
      cbn. eexists. split.
      * rewrite run_hook_latched.
        -- do 4 f_equal. lia.
        -- cbn. apply negb_true_iff, Z.eqb_neq. lia.
      * done.
    + rewrite mHook_not_read by done.
      apply Z.eqb_neq in Hty. rewrite Hty. cbn. apply IH.
Qed.

Lemma resolve_by_access_spec_range lp len trace k :
  resolve_by_access_spec lp len trace = Some k → 0 ≤ k < len.
Proof.
  induction trace as [|e trace IH]; [done|]. cbn [resolve_by_access_spec].
  destruct (_ && _) eqn:Hc; [|done].
  intros [= <-]. apply andb_true_iff in Hc as [Hc H2].
  apply andb_true_iff in Hc as [_ H1]. lia.
Qed.
End HookShape.

(** ** Further properties of the address-interception resolver *)

Section AccessExtras.
Context {Emu : Type}.
Variable W : World Emu.
Implicit Types (s : PyState Emu).

Lemma run_hook_filter_reads trace (d : HookData) s :
  run_hook mHook (filter (λ ev, accessType ev = UC_MEM_READ) trace) d s
  = run_hook mHook trace d s.
Proof.
  revert d s. induction trace as [|ev trace IH]; intros d s; [done|].
  rewrite filter_cons.
  destruct (decide (accessType ev = UC_MEM_READ)) as [Hty|Hty].
  - rewrite !run_hook_cons.
    destruct (mHook ev d s) as [[d'|e] s']; [apply IH|done].
  - rewrite (run_hook_cons _ ev trace), mHook_not_read by done. apply IH.
Qed.

(** In every outcome [sks_storeownerprocess] leaves the log as it was. *)
Lemma sks_storeownerprocess_records s :
  records (sks_storeownerprocess W s).2 = records s.
Proof.
  unfold sks_storeownerprocess, fe_loadBytes, fe_iterate, fe_getRegVal.
  run_monad.
  destruct (locate_call_in_fn W _ _) as [[startAddr endAddr]|e]; [|done].
  destruct (patgen W 8192) as [pat|e]; [|done].
  destruct (loadBytes W pat (fe s)) as [base e1]. cbn [fe records].
  by destruct (struct_pack _ _).
Qed.

(** In every outcome [sks_compressedregionptrarray] only adds debug
    records. *)
Lemma sks_compressedregionptrarray_records s :
  ∃ l, records (sks_compressedregionptrarray W s).2 = records s ++ l
    ∧ Forall (λ r, log_level r = DEBUG) l.
Proof.
  unfold sks_compressedregionptrarray, fe_loadBytes, fe_emulateRange.
  run_monad.
  destruct (find_ida_name W _) as [[fn_addr fn_name]|e];
    [|exists []; by rewrite app_nil_r].
  destruct (patgen W 8192) as [pat|e]; [|exists []; by rewrite app_nil_r].
  destruct (loadBytes W pat (fe s)) as [lp e1]. cbn [fe records].
  destruct (emulateRange W _ _ _) as [trace e2].
  destruct (run_hook_mHook_shape trace (mkHookData None lp)
              (mkState e2 (records s))) as (d' & l & -> & _ & Hl & _).
  exists l. by destruct (offset d').
Qed.
End AccessExtras.

(** X1.  Whatever accesses the hook is called with, and in whatever
    order, [mHook] itself never raises and never changes the structure
    address it captured; it leaves the emulator alone, and what it adds to
    the log are debug records only, at most one per read it was called
    with. *)
Theorem mHook_calls_shape {Emu} (trace : list MemAccess) (d : HookData)
    (s : PyState Emu) :
  ∃ d' l,
    run_hook mHook trace d s = (Ok d', mkState (fe s) (records s ++ l))
    ∧ structAddr d' = structAddr d
    ∧ Forall (λ r, log_level r = DEBUG) l
    ∧ (length l ≤
       length (filter (λ ev, accessType ev = UC_MEM_READ) trace))%nat.
Proof.
  destruct (run_hook_mHook_shape trace d s) as (d' & l & Hrun & Hsa & Hl & Hlen).
  by exists d', l.
Qed.

(** X2.  The stores a routine performs never matter to
    [sks_compressedregionptrarray]: with an emulator that reports only the
    reads of each run, the result, the emulator and the log come out the
    same. *)
Theorem sks_compressedregionptrarray_reads_only {Emu} (W : World Emu)
    (s : PyState Emu) :
  sks_compressedregionptrarray (reads_only W) s
  = sks_compressedregionptrarray W s.
Proof.
  unfold sks_compressedregionptrarray, fe_loadBytes, fe_emulateRange.
  run_monad. cbn [reads_only is_64bit find_ida_name patgen loadBytes emulateRange].
  destruct (find_ida_name W _) as [[fn_addr fn_name]|e]; [|done].
  destruct (patgen W 8192) as [pat|e]; [|done].
  destruct (loadBytes W pat (fe s)) as [lp e1]. cbn [fe records].
  destruct (emulateRange W _ _ _) as [trace e2].
  by rewrite run_hook_filter_reads.
Qed.

(** X3.  A read of address 0 does not close the hook.  When the only
    reads a routine performs are of address 0, and there is one,
    [sks_compressedregionptrarray] does not fail: it returns 0 minus the
    base of the loaded pattern. *)
Theorem sks_compressedregionptrarray_null_only {Emu} (W : World Emu) s
    fn_addr fn_name pat lp e1 trace e2 :
  find_ida_name W "SmStMapVirtualRegion" = Ok (fn_addr, fn_name) →
  patgen W 8192 = Ok pat →
  loadBytes W pat (fe s) = (lp, e1) →
  emulateRange W fn_addr {[ (if is_64bit W then "rcx" else "ecx") := lp ]} e1
    = (trace, e2) →
  Forall (λ e, accessType e = UC_MEM_READ → memAccessAddress e = 0) trace →
  Exists (λ e, accessType e = UC_MEM_READ) trace →
  (sks_compressedregionptrarray W s).1 = Ok (0 - lp)
  ∧ fe (sks_compressedregionptrarray W s).2 = e2.
Proof.
  intros Hfind Hpat Hload Hemu Hnull Hread.
  rewrite (sks_compressedregionptrarray_run W s _ _ _ _ _ _ _ Hfind Hpat Hload Hemu).
  destruct (run_hook_null_reads trace (mkHookData None lp)
              (mkState e2 (records s)) Hnull eq_refl)
    as (d' & s' & -> & Hsa & Hfe & Hoff).
  destruct Hoff as [Hoff|[_ Hnone]].
  - rewrite Hoff, Hsa. by split.
  - exfalso. apply Exists_exists in Hread as (e & Hin & Hty).
    by apply (proj1 (Forall_forall _ _) Hnone e Hin).
Qed.

Lemma sks_compressedregionptrarray_null_only_witness :
  (sks_compressedregionptrarray null_only_x86 toy_init).1 = Ok (- toy_base).
Proof.
  refine (proj1 (sks_compressedregionptrarray_null_only null_only_x86 toy_init
    0x401000 "SmStMapVirtualRegion" probe_8192 toy_base (mkToy probe_8192 0)
    (reads_null_only 4 toy_base) (mkToy probe_8192 0) _ _ _ _ _ _)).
  - reflexivity.
  - reflexivity.
  - reflexivity.
  - vm_compute. reflexivity.
  - repeat constructor; discriminate.
  - apply Exists_cons_tl, Exists_cons_hd. reflexivity.
Defined.

(** X4.  Reads of address 0 never decide the result when a read of another
    address follows: [sks_compressedregionptrarray] returns the distance
    from the base of the first read whose address is not 0. *)
Theorem sks_compressedregionptrarray_skips_null {Emu} (W : World Emu) s
    fn_addr fn_name pat lp e1 pre ev post e2 :
  find_ida_name W "SmStMapVirtualRegion" = Ok (fn_addr, fn_name) →
  patgen W 8192 = Ok pat →
  loadBytes W pat (fe s) = (lp, e1) →
  emulateRange W fn_addr {[ (if is_64bit W then "rcx" else "ecx") := lp ]} e1
    = (pre ++ ev :: post, e2) →
  Forall (λ e, accessType e = UC_MEM_READ → memAccessAddress e = 0) pre →
  accessType ev = UC_MEM_READ →
  memAccessAddress ev ≠ 0 →
  (sks_compressedregionptrarray W s).1 = Ok (memAccessAddress ev - lp).
Proof.
  intros Hfind Hpat Hload Hemu Hpre Hev Hnz.
  rewrite (sks_compressedregionptrarray_run W s _ _ _ _ _ _ _ Hfind Hpat Hload Hemu).
  by destruct (run_hook_first_read pre ev post (mkHookData None lp)
                 (mkState e2 (records s)) eq_refl Hpre Hev Hnz) as (s' & -> & _).
Qed.

Lemma sks_compressedregionptrarray_skips_null_witness :
  (sks_compressedregionptrarray null_first_x86 toy_init).1 = Ok 0x1184.
Proof.
  rewrite (sks_compressedregionptrarray_skips_null null_first_x86 toy_init
    0x401000 "SmStMapVirtualRegion" probe_8192 toy_base (mkToy probe_8192 0)
    [ mkAccess UC_MEM_READ 0 4 0; mkAccess UC_MEM_WRITE (toy_stack - 4) 4 0 ]
    (mkAccess UC_MEM_READ (toy_base + 0x1184) 4 0) [] (mkToy probe_8192 0)
    eq_refl eq_refl eq_refl).
  - reflexivity.
  - vm_compute. reflexivity.
  - constructor; [intros _; reflexivity|].
    constructor; [discriminate|]. constructor.
  - reflexivity.
  - vm_compute. discriminate.
Defined.

(** X5.  When the base is positive and every read the emulator reports
    lies inside the loaded pattern, [sks_compressedregionptrarray] returns
    the offset of the first read, a number from 0 up to the length of the
    pattern, and raises [TypeError] when there is no read: in that case it
    does what the address-interception contract describes. *)
Theorem sks_compressedregionptrarray_in_range {Emu} (W : World Emu) s
    fn_addr fn_name pat lp e1 trace e2 :
  find_ida_name W "SmStMapVirtualRegion" = Ok (fn_addr, fn_name) →
  patgen W 8192 = Ok pat →
  loadBytes W pat (fe s) = (lp, e1) →
  emulateRange W fn_addr {[ (if is_64bit W then "rcx" else "ecx") := lp ]} e1
    = (trace, e2) →
  0 < lp →
  Forall (λ e, accessType e = UC_MEM_READ →
               lp ≤ memAccessAddress e < lp + Z.of_nat (length pat)) trace →
  match resolve_by_access_spec lp (Z.of_nat (length pat)) trace with
  | Some k =>
      (sks_compressedregionptrarray W s).1 = Ok k
      ∧ 0 ≤ k < Z.of_nat (length pat)
  | None => (sks_compressedregionptrarray W s).1 = Err TypeError
  end.
Proof.
  intros Hfind Hpat Hload Hemu Hlp Hin.
  rewrite (sks_compressedregionptrarray_run W s _ _ _ _ _ _ _ Hfind Hpat Hload Hemu).
  destruct (run_hook_in_range lp (Z.of_nat (length pat)) trace
              (mkState e2 (records s)) Hlp Hin) as (s' & -> & _).
  destruct (resolve_by_access_spec _ _ _) as [k|] eqn:Hspec; cbn; [|done].
  split; [f_equal; lia|]. by eapply resolve_by_access_spec_range.
Qed.

Lemma sks_compressedregionptrarray_in_range_witness :
  (sks_compressedregionptrarray scenario_x64 toy_init).1 = Ok 0x118
  ∧ 0 ≤ 0x118 < Z.of_nat (length probe_8192).
Proof.
  refine (sks_compressedregionptrarray_in_range scenario_x64 toy_init
    0x401000 "SmStMapVirtualRegion" probe_8192 toy_base (mkToy probe_8192 0)
    (reads_field_first 8 0x118 toy_base) (mkToy probe_8192 0) _ _ _ _ _ _).
  - reflexivity.
  - reflexivity.
  - reflexivity.
  - vm_compute. reflexivity.
  - reflexivity.
  - assert (Hlen : Z.of_nat (length probe_8192) = 8192)
      by (vm_compute; reflexivity).
    rewrite Hlen. unfold reads_field_first, toy_base.
    constructor; [discriminate|]. constructor; [discriminate|].
    constructor; [intros _; cbn [memAccessAddress]; lia|].
    constructor; [intros _; cbn [memAccessAddress]; lia|]. constructor.
Defined.

(** X6.  When the routine or the call site cannot be located, or the
    pattern cannot be generated, either resolver ends with that very
    exception and has touched neither the emulator nor the log: nothing
    was loaded or emulated. *)
Theorem resolvers_fail_before_loading {Emu} (W : World Emu) s e :
  (find_ida_name W "SmStMapVirtualRegion" = Err e
   ∨ (∃ r, find_ida_name W "SmStMapVirtualRegion" = Ok r)
     ∧ patgen W 8192 = Err e →
   sks_compressedregionptrarray W s = (Err e, s))
  ∧ (locate_call_in_fn W "?SmStDirectRead@?$SMKM_STORE" "KiStackAttachProcess"
       = Err e
     ∨ (∃ r, locate_call_in_fn W "?SmStDirectRead@?$SMKM_STORE"
               "KiStackAttachProcess" = Ok r)
       ∧ patgen W 8192 = Err e →
     sks_storeownerprocess W s = (Err e, s)).
Proof.
  split.
  - unfold sks_compressedregionptrarray. run_monad.
    intros [-> | [[[fn_addr fn_name] ->] ->]]; done.
  - unfold sks_storeownerprocess. run_monad.
    intros [-> | [[[startAddr endAddr] ->] ->]]; done.
Qed.

Lemma resolvers_fail_before_loading_witness :
  sks_compressedregionptrarray unlocated_x86 toy_init
    = (Err (OtherError "no such name"), toy_init)
  ∧ sks_storeownerprocess unlocated_x86 toy_init
    = (Err (OtherError "no such call"), toy_init).
Proof.
  split.
  - apply (proj1 (resolvers_fail_before_loading unlocated_x86 toy_init
                    (OtherError "no such name"))).
    left. reflexivity.
  - apply (proj2 (resolvers_fail_before_loading unlocated_x86 toy_init
                    (OtherError "no such call"))).
    left. reflexivity.
Defined.

(** ** Further properties of the value-correlation resolver *)

(** X7.  Neither resolver writes a result line: in every outcome
    [sks_storeownerprocess] leaves the log as it found it, and
    [sks_compressedregionptrarray] adds debug records only. *)
Theorem resolvers_log_discipline {Emu} (W : World Emu) (s : PyState Emu) :
  records (sks_storeownerprocess W s).2 = records s
  ∧ ∃ l, records (sks_compressedregionptrarray W s).2 = records s ++ l
       ∧ Forall (λ r, log_level r = DEBUG) l.
Proof.
  split; [apply sks_storeownerprocess_records
         |apply sks_compressedregionptrarray_records].
Qed.

(** X8.  For a register value of the pointer width,
    [sks_storeownerprocess] returns a non-negative offset exactly when some
    full window of the pattern is the little-endian form of that value, and
    the window at the returned offset then lies inside the pattern and
    decodes to the value. *)
Theorem sks_storeownerprocess_decodes {Emu} (W : World Emu) s
    startAddr endAddr pat base e1 e2 v :
  locate_call_in_fn W "?SmStDirectRead@?$SMKM_STORE" "KiStackAttachProcess"
    = Ok (startAddr, endAddr) →
  patgen W 8192 = Ok pat →
  loadBytes W pat (fe s) = (base, e1) →
  iterate W [endAddr] (reg_write W (regs W "cx") base) e1 = e2 →
  getRegVal W (if is_64bit W then "rcx" else "ecx") e2 = v →
  let w := if is_64bit W then 8%nat else 4%nat in
  0 ≤ v < 256 ^ Z.of_nat w →
  ∃ r, sks_storeownerprocess W s = (Ok r, mkState e2 (records s))
    ∧ (0 ≤ r ↔ ∃ k : nat, (k + w ≤ length pat)%nat
                          ∧ le_int (slice pat k w) = v)
    ∧ (0 ≤ r → r + Z.of_nat w ≤ Z.of_nat (length pat)
               ∧ le_int (slice pat (Z.to_nat r) w) = v).
Proof.
  intros Hloc Hpat Hload Hit Hreg w Hv.
  rewrite (sks_storeownerprocess_run W s _ _ _ _ _ _ _ Hloc Hpat Hload Hit Hreg).
  rewrite struct_pack_fmt. fold (ptr_width (is_64bit W)) in w. fold w.
  replace ((0 <=? v) && (v <? 256 ^ Z.of_nat w)) with true
    by (symmetry; apply andb_true_iff; lia).
  eexists. split; [reflexivity|].
  pose proof (length_le_bytes w v) as Hlen.
  pose proof (le_int_le_bytes w v Hv) as Hdec.
  assert (Hpos : ∀ r, bytes_find pat (le_bytes w v) = r → 0 ≤ r →
            r + Z.of_nat w ≤ Z.of_nat (length pat)
            ∧ le_int (slice pat (Z.to_nat r) w) = v).
  { intros r Hr H0.
    destruct (bytes_find_present pat _ r Hr) as (_ & [Hb Hs] & _); [lia|].
    rewrite Hlen in Hb, Hs. split; [lia|]. by rewrite Hs. }
  split; [split|].
  - intros H0. destruct (Hpos _ eq_refl H0) as [Hb Hd].
    exists (Z.to_nat (bytes_find pat (le_bytes w v))). split; [lia|done].
  - intros (k & Hk & Hd).
    destruct (decide (bytes_find pat (le_bytes w v) = -1)) as [Habs|Hne].
    + exfalso. apply (proj1 (bytes_find_absent _ _) Habs k).
      split; [by rewrite Hlen|]. rewrite Hlen, <- Hd.
      assert (Hl : length (slice pat k w) = w) by (rewrite length_slice; lia).
      rewrite <- Hl at 2. symmetry. apply le_bytes_le_int.
    + by destruct (bytes_find_present pat _ _ eq_refl Hne) as (H0 & _).
  - by apply Hpos.
Qed.

Lemma sks_storeownerprocess_decodes_witness :
  ∃ r, sks_storeownerprocess scenario_x64 toy_init
       = (Ok r, mkState (mkToy probe_8192
                           (le_int (slice probe_8192 (Z.to_nat 0x1c8) 8))) [])
     ∧ 0 ≤ r.
Proof.
  destruct (sks_storeownerprocess_decodes scenario_x64 toy_init
    0x402035 0x402046 probe_8192 toy_base (mkToy probe_8192 0) _ _
    eq_refl eq_refl eq_refl eq_refl eq_refl) as (r & Hrun & Hiff & _).
  - apply le_int_range.
  - exists r. split; [exact Hrun|].
    apply Hiff. exists (Z.to_nat 0x1c8). split; [|reflexivity].
    apply Nat2Z.inj_le. rewrite Nat2Z.inj_add.
    assert (Hlen : Z.of_nat (length probe_8192) = 8192)
      by (vm_compute; reflexivity).
    rewrite Hlen. apply Z.leb_le. vm_compute. reflexivity.
Defined.

(** ** Further properties of the aggregate dump *)

Section DumpExtras.
Context {Emu : Type}.
Variable W : World Emu.
Implicit Types (s : PyState Emu)
  (arch_fns : gmap string (gmap string (Resolver Emu))).

(** [_dump] over a table that holds the methods, as a cascade of the two
    resolvers that can fail. *)
Lemma dump_unfold arch_fns s :
  registered W arch_fns →
  _dump W arch_fns s =
    match sks_compressedregionptrarray W
            (mkState (fe s) (records s ++ [mkLog INFO "StStore: {0:#x}" [0]]))
    with
    | (Ok v, s2) =>
        match sks_storeownerprocess W
                (mkState (fe s2)
                   (records s2
                    ++ [mkLog INFO "pCompressedRegionPtrArray: {0:#x}" [v]]))
        with
        | (Ok v', s4) =>
            (Ok (), mkState (fe s4)
               (records s4 ++ [mkLog INFO "StoreOwnerProcess: {0:#x}" [v']]))
        | (Err e, s4) => (Err e, s4)
        end
    | (Err e, s2) => (Err e, s2)
    end.
Proof.
  intros Hreg. unfold _dump. unfold mbind at 1, M_bind at 1.
  destruct (call_arch_fn_registered W arch_fns s Hreg) as (-> & _ & _).
  rewrite sks_ststore_zero_eq. unfold mbind at 1, M_bind at 1, logger_info at 1.
  cbn beta iota. unfold mbind at 1, M_bind at 1.
  destruct (call_arch_fn_registered W arch_fns
    (mkState (fe s) (records s ++ [mkLog INFO "StStore: {0:#x}" [0]])) Hreg)
    as (_ & -> & _).
  destruct (sks_compressedregionptrarray W _) as [[v|e] s2]; [|done].
  unfold mbind at 1, M_bind at 1, logger_info at 1. cbn beta iota.
  unfold mbind at 1, M_bind at 1.
  destruct (call_arch_fn_registered W arch_fns
    (mkState (fe s2)
       (records s2 ++ [mkLog INFO "pCompressedRegionPtrArray: {0:#x}" [v]]))
    Hreg) as (_ & _ & ->).
  by destruct (sks_storeownerprocess W _) as [[v'|e] s4].
Qed.

Lemma filter_INFO_debug (l : list LogRecord) :
  Forall (λ r, log_level r = DEBUG) l →
  filter (λ r, log_level r = INFO) l = [].
Proof.
  induction 1 as [|r l Hr _ IH]; [done|].
  rewrite filter_cons, IH. destruct (decide _) as [Hi|]; [congruence|done].
Qed.
End DumpExtras.

(** X10.  When the first read of a non-zero address that the routine
    performs is at address [a] (only reads of address 0 may come before
    it) and the final register value is of the pointer width, [_dump] over
    a table that holds the methods ends normally and writes exactly three
    INFO records, in this order: StStore with 0,
    pCompressedRegionPtrArray with [a] minus the base, StoreOwnerProcess
    with the index at which the packed register value is found.  The second
    resolver loads the pattern again, into the emulator as the first one
    left it. *)
Theorem dump_result_lines {Emu} (W : World Emu)
    (arch_fns : gmap string (gmap string (Resolver Emu))) (s : PyState Emu)
    fn_addr fn_name pat lp e1 pre ev post e2 startAddr endAddr base e3 e4 v :
  registered W arch_fns →
  find_ida_name W "SmStMapVirtualRegion" = Ok (fn_addr, fn_name) →
  patgen W 8192 = Ok pat →
  loadBytes W pat (fe s) = (lp, e1) →
  emulateRange W fn_addr {[ (if is_64bit W then "rcx" else "ecx") := lp ]} e1
    = (pre ++ ev :: post, e2) →
  Forall (λ e, accessType e = UC_MEM_READ → memAccessAddress e = 0) pre →
  accessType ev = UC_MEM_READ →
  memAccessAddress ev ≠ 0 →
  locate_call_in_fn W "?SmStDirectRead@?$SMKM_STORE" "KiStackAttachProcess"
    = Ok (startAddr, endAddr) →
  loadBytes W pat e2 = (base, e3) →
  iterate W [endAddr] (reg_write W (regs W "cx") base) e3 = e4 →
  getRegVal W (if is_64bit W then "rcx" else "ecx") e4 = v →
  let w := if is_64bit W then 8%nat else 4%nat in
  0 ≤ v < 256 ^ Z.of_nat w →
  ∃ l, _dump W arch_fns s = (Ok (), mkState e4 (records s ++ l))
    ∧ filter (λ r, log_level r = INFO) l
      = [ mkLog INFO "StStore: {0:#x}" [0];
          mkLog INFO "pCompressedRegionPtrArray: {0:#x}"
            [memAccessAddress ev - lp];
          mkLog INFO "StoreOwnerProcess: {0:#x}"
            [bytes_find pat (le_bytes w v)] ].
Proof.
  intros Hreg Hfind Hpat Hload Hemu Hpre Hev Hnz Hloc Hload2 Hit Hgv w Hv.
  rewrite (dump_unfold W arch_fns s Hreg).
  rewrite (sks_compressedregionptrarray_run W
             (mkState (fe s) (records s ++ [mkLog INFO "StStore: {0:#x}" [0]]))
             _ _ _ _ _ _ _ Hfind Hpat Hload Hemu).
  cbn [fe records].
  destruct (run_hook_mHook_shape (pre ++ ev :: post) (mkHookData None lp)
              (mkState e2 (records s ++ [mkLog INFO "StStore: {0:#x}" [0]])))
    as (d' & ld & Hrun & _ & Hld & _).
  destruct (run_hook_first_read pre ev post (mkHookData None lp)
              (mkState e2 (records s ++ [mkLog INFO "StStore: {0:#x}" [0]]))
              eq_refl Hpre Hev Hnz) as (s' & Hrun' & _).
  rewrite Hrun in Hrun'. injection Hrun' as -> _. rewrite Hrun.
  cbn [offset structAddr fe records].
  erewrite sks_storeownerprocess_run;
    [|exact Hloc|exact Hpat|exact Hload2|exact Hit|exact Hgv].
  rewrite struct_pack_fmt. fold (ptr_width (is_64bit W)) in w. fold w.
  replace ((0 <=? v) && (v <? 256 ^ Z.of_nat w)) with true
    by (symmetry; apply andb_true_iff; lia).
  cbn [fe records].
  exists (mkLog INFO "StStore: {0:#x}" [0]
          :: ld ++ [ mkLog INFO "pCompressedRegionPtrArray: {0:#x}"
                       [memAccessAddress ev - lp];
                     mkLog INFO "StoreOwnerProcess: {0:#x}"
                       [bytes_find pat (le_bytes w v)] ]).
  split.
  - by rewrite <- !app_assoc.
  - rewrite filter_cons, filter_app, filter_INFO_debug by done.
    by destruct (decide _).
Qed.

Lemma dump_result_lines_witness :
  ∃ l, _dump scenario_x64 toy_arch_fns toy_init
       = (Ok (),
          mkState (mkToy probe_8192
                     (le_int (slice probe_8192 (Z.to_nat 0x1c8) 8)))
            (records toy_init ++ l))
     ∧ filter (λ r, log_level r = INFO) l
       = [ mkLog INFO "StStore: {0:#x}" [0];
           mkLog INFO "pCompressedRegionPtrArray: {0:#x}" [0x118];
           mkLog INFO "StoreOwnerProcess: {0:#x}" [0x1c8] ].
Proof.
  destruct (dump_result_lines scenario_x64 toy_arch_fns toy_init
    0x401000 "SmStMapVirtualRegion" probe_8192 toy_base (mkToy probe_8192 0)
    [ mkAccess UC_MEM_WRITE (toy_stack - 8) 8 0;
      mkAccess UC_MEM_WRITE (toy_stack - 2 * 8) 8 0 ]
    (mkAccess UC_MEM_READ (toy_base + 0x118) 8 0)
    [ mkAccess UC_MEM_READ (toy_base + 0x118 + 2 * 8) 8 0 ]
    (mkToy probe_8192 0) 0x402035 0x402046 toy_base (mkToy probe_8192 0)
    (mkToy probe_8192 (le_int (slice probe_8192 (Z.to_nat 0x1c8) 8)))
    (le_int (slice probe_8192 (Z.to_nat 0x1c8) 8))
    (toy_arch_fns_registered scenario_x64) eq_refl eq_refl eq_refl)
    as (l & Hrun & Hlines).
  - vm_compute. reflexivity.
  - constructor; [discriminate|]. constructor; [discriminate|]. constructor.
  - reflexivity.
  - vm_compute. discriminate.
  - reflexivity.
  - reflexivity.
  - vm_compute. reflexivity.
  - vm_compute. reflexivity.
  - apply le_int_range.
  - exists l. split; [exact Hrun|].
    rewrite Hlines. vm_compute. reflexivity.
Defined.

(** X11.  Over a table that holds the methods, [_dump] in every outcome
    keeps the records that were in the log, always writes the StStore line
    with 0 first, and after it writes at most the pCompressedRegionPtrArray
    line and then the StoreOwnerProcess line, each at most once and in that
    order, with only debug records in between. *)
Theorem dump_log_discipline {Emu} (W : World Emu)
    (arch_fns : gmap string (gmap string (Resolver Emu))) (s : PyState Emu) :
  registered W arch_fns →
  ∃ l v1 v2,
    records (_dump W arch_fns s).2
    = records s ++ mkLog INFO "StStore: {0:#x}" [0] :: l
    ∧ (filter (λ r, log_level r = INFO) l = []
       ∨ filter (λ r, log_level r = INFO) l
         = [mkLog INFO "pCompressedRegionPtrArray: {0:#x}" [v1]]
       ∨ filter (λ r, log_level r = INFO) l
         = [mkLog INFO "pCompressedRegionPtrArray: {0:#x}" [v1];
            mkLog INFO "StoreOwnerProcess: {0:#x}" [v2]]).
Proof.
  intros Hreg. rewrite (dump_unfold W arch_fns s Hreg).
  destruct (sks_compressedregionptrarray_records W
              (mkState (fe s) (records s ++ [mkLog INFO "StStore: {0:#x}" [0]])))
    as (ld & Hrec & Hld).
  destruct (sks_compressedregionptrarray W _) as [[v|e] s2];
    cbn [snd records] in Hrec.
  - pose proof (sks_storeownerprocess_records W
                  (mkState (fe s2)
                     (records s2
                      ++ [mkLog INFO "pCompressedRegionPtrArray: {0:#x}" [v]])))
      as Hrec3.
    destruct (sks_storeownerprocess W _) as [[v'|e] s4];
      cbn [snd records] in Hrec3 |- *; rewrite Hrec3, Hrec, <- !app_assoc.
    + exists (ld ++ [mkLog INFO "pCompressedRegionPtrArray: {0:#x}" [v];
                     mkLog INFO "StoreOwnerProcess: {0:#x}" [v']]), v, v'.
      split; [done|].
      right; right. by rewrite filter_app, filter_INFO_debug.
    + exists (ld ++ [mkLog INFO "pCompressedRegionPtrArray: {0:#x}" [v]]), v, 0.
      split; [done|].
      right; left. by rewrite filter_app, filter_INFO_debug.
  - exists ld, 0, 0. cbn [snd]. rewrite Hrec, <- app_assoc. split; [done|].
    left. by apply filter_INFO_debug.
Qed.

Lemma dump_log_discipline_witness :
  ∃ l v1 v2,
    records (_dump writes_only_x86 toy_arch_fns toy_init).2
    = records toy_init ++ mkLog INFO "StStore: {0:#x}" [0] :: l
    ∧ (filter (λ r, log_level r = INFO) l = []
       ∨ filter (λ r, log_level r = INFO) l
         = [mkLog INFO "pCompressedRegionPtrArray: {0:#x}" [v1]]
       ∨ filter (λ r, log_level r = INFO) l
         = [mkLog INFO "pCompressedRegionPtrArray: {0:#x}" [v1];
            mkLog INFO "StoreOwnerProcess: {0:#x}" [v2]]).
Proof.
  apply (dump_log_discipline writes_only_x86 toy_arch_fns toy_init).
  apply toy_arch_fns_registered.
Defined.
